(** * inferenceSampleApp: the browser front end (src/app.js) and its
      credential proxy, embedded and verified.

    The front end is a handful of [async] functions over two module-level
    variables and a few DOM elements.  They are embedded as programs of a
    small free monad ([prog]): synchronous reads and writes of the page
    state, [throw], and [await] of a request answered by the browser, the
    network or the inference SDK.  The [await] of one of the script's own
    [async] functions is the bind of the monad; a task suspends at the
    requests to the outside.  A program can be run to completion against a
    [World] that answers its requests ([run]), or scheduled task by task so
    that several handlers are in flight at once ([Machine]). *)

From stdpp Require Import gmap strings list fin_maps pretty.
From Stdlib Require Import ZArith.

(** ** JavaScript values *)

Module Js.

(** The values [JSON.parse] can produce, with [undefined] for an absent
    property.  Only the truthiness of a number is observed by the code, so
    numbers are kept as integers. *)
#[warnings="-register-all"] Inductive value : Type :=
| VUndefined
| VNull
| VBool (b : bool)
| VNum (n : Z)
| VStr (s : string)
| VArr (l : list value)
| VObj (m : gmap string value).

(** [!!v]: every array and every object is truthy, the empty ones too. *)
Definition truthy (v : value) : bool :=
  match v with
  | VUndefined | VNull => false
  | VBool b => b
  | VNum n => negb (n =? 0)%Z
  | VStr s => negb (String.eqb s "")
  | VArr _ | VObj _ => true
  end.

(** [Array.isArray(v)] *)
Definition isArray (v : value) : bool :=
  match v with VArr _ => true | _ => false end.

Definition isString (v : value) : bool :=
  match v with VStr _ => true | _ => false end.

(** An error object; [message] is all the code reads of it. *)
Record Error := mkError { message : string }.

Inductive result (A : Type) : Type :=
| Ok (a : A)
| Err (e : Error).
Arguments Ok {A} a.
Arguments Err {A} e.

(** [v.key]: a property read.  On [null] and [undefined] it throws a
    TypeError; on any other primitive and on arrays the three keys the code
    reads are absent. *)
Definition get_prop (v : value) (key : string) : result value :=
  match v with
  | VObj m => Ok (default VUndefined (m !! key))
  | VNull =>
      Err (mkError ("Cannot read properties of null (reading '" +:+ key +:+ "')"))
  | VUndefined =>
      Err (mkError ("Cannot read properties of undefined (reading '" +:+ key +:+ "')"))
  | _ => Ok VUndefined
  end.

(** [hay.includes(needle)] *)
Fixpoint includes (needle hay : string) : bool :=
  if String.prefix needle hay then true
  else match hay with
       | EmptyString => false
       | String _ rest => includes needle rest
       end.

End Js.
Import Js.

(** ** The page: module variables and the DOM elements the code touches *)

(** A [MediaStream] object, by identity. *)
Definition MediaStream := nat.

(** The SDK's connection object: its identity and the local stream it was
    built from, which its [cleanup()] stops. *)
Record Connection := mkConnection {
  conn_id : nat;
  conn_source : MediaStream
}.

Inductive level := LLog | LWarn | LError.

Record Page := mkPage {
  activeConnection : option Connection;   (* let activeConnection = null *)
  WORKFLOW_SPEC : value;                  (* let WORKFLOW_SPEC = null *)
  startBtn_disabled : bool;
  stopBtn_disabled : bool;
  status_text : string;                   (* statusEl.textContent *)
  video_srcObject : option MediaStream;   (* videoEl.srcObject *)
  video_controls : bool;                  (* videoEl.controls *)
  console : list (level * string);        (* first argument of each console call *)
  alerts : list string
}.

Definition set_activeConnection (c : option Connection) (s : Page) : Page :=
  mkPage c (WORKFLOW_SPEC s) (startBtn_disabled s) (stopBtn_disabled s)
         (status_text s) (video_srcObject s) (video_controls s) (console s) (alerts s).
Definition set_WORKFLOW_SPEC (v : value) (s : Page) : Page :=
  mkPage (activeConnection s) v (startBtn_disabled s) (stopBtn_disabled s)
         (status_text s) (video_srcObject s) (video_controls s) (console s) (alerts s).
Definition set_startBtn_disabled (b : bool) (s : Page) : Page :=
  mkPage (activeConnection s) (WORKFLOW_SPEC s) b (stopBtn_disabled s)
         (status_text s) (video_srcObject s) (video_controls s) (console s) (alerts s).
Definition set_stopBtn_disabled (b : bool) (s : Page) : Page :=
  mkPage (activeConnection s) (WORKFLOW_SPEC s) (startBtn_disabled s) b
         (status_text s) (video_srcObject s) (video_controls s) (console s) (alerts s).
Definition set_status_text (t : string) (s : Page) : Page :=
  mkPage (activeConnection s) (WORKFLOW_SPEC s) (startBtn_disabled s) (stopBtn_disabled s)
         t (video_srcObject s) (video_controls s) (console s) (alerts s).
Definition set_video_srcObject (m : option MediaStream) (s : Page) : Page :=
  mkPage (activeConnection s) (WORKFLOW_SPEC s) (startBtn_disabled s) (stopBtn_disabled s)
         (status_text s) m (video_controls s) (console s) (alerts s).
Definition set_video_controls (b : bool) (s : Page) : Page :=
  mkPage (activeConnection s) (WORKFLOW_SPEC s) (startBtn_disabled s) (stopBtn_disabled s)
         (status_text s) (video_srcObject s) b (console s) (alerts s).
Definition console_push (l : level) (msg : string) (s : Page) : Page :=
  mkPage (activeConnection s) (WORKFLOW_SPEC s) (startBtn_disabled s) (stopBtn_disabled s)
         (status_text s) (video_srcObject s) (video_controls s)
         (console s ++ [(l, msg)]) (alerts s).
Definition alert_push (msg : string) (s : Page) : Page :=
  mkPage (activeConnection s) (WORKFLOW_SPEC s) (startBtn_disabled s) (stopBtn_disabled s)
         (status_text s) (video_srcObject s) (video_controls s) (console s)
         (alerts s ++ [msg]).

(** A freshly loaded page: nothing connected, nothing cached, the start
    button enabled.  (The markup fixes the other fields; no theorem depends
    on them.) *)
Definition initial_page : Page :=
  mkPage None VNull false true "Idle" None false [] [].

(** ** Requests to the outside *)

(** A [fetch] response: status line and what [json()] will settle to. *)
Record Response := mkResponse {
  status : nat;
  statusText : string;
  json_body : result value
}.

(** [response.ok] *)
Definition ok (r : Response) : bool := (200 <=? status r) && (status r <=? 299).

(** The [wrtcParams] handed to [webrtc.useStream]. *)
Record WrtcParams := mkWrtcParams {
  workflowSpec : value;
  imageInputName : string;
  streamOutputNames : list string;
  dataOutputNames : list string;
  iceServers : list value
}.

(** Every suspension point of the code is the [await] of one of these. *)
Inductive request : Type -> Type :=
| Fetch (url : string) : request Response
| Json (r : Response) : request value
| UseCamera : request MediaStream
| UseStream (source : MediaStream) (proxyUrl : string) (params : WrtcParams)
    : request Connection
| RemoteStream (c : Connection) : request MediaStream
| Play (m : option MediaStream) : request unit
| Cleanup (c : Connection) : request unit.

(** What answers the requests of one run. *)
Record World := mkWorld {
  w_fetch : string -> result Response;
  w_useCamera : result MediaStream;
  w_useStream : MediaStream -> string -> WrtcParams -> result Connection;
  w_remoteStream : Connection -> result MediaStream;
  w_play : option MediaStream -> result unit;
  w_cleanup : Connection -> result unit
}.

(** A response body is fixed once the response has arrived. *)
Definition respond (w : World) {A : Type} (r : request A) : result A :=
  match r in request T return result T with
  | Fetch url => w_fetch w url
  | Json resp => json_body resp
  | UseCamera => w_useCamera w
  | UseStream src url p => w_useStream w src url p
  | RemoteStream c => w_remoteStream w c
  | Play m => w_play w m
  | Cleanup c => w_cleanup w c
  end.

(** One settled request, as recorded in the trace of a run. *)
Inductive event : Type :=
| Ev {A : Type} (r : request A) (a : result A).

(** ** Programs *)

Inductive prog (R : Type) : Type :=
| Ret (r : R)
| Throw (e : Error)
| Read (k : Page -> prog R)
| Write (f : Page -> Page) (k : prog R)
| Await {A : Type} (r : request A) (k : result A -> prog R).
Arguments Ret {R} r.
Arguments Throw {R} e.
Arguments Read {R} k.
Arguments Write {R} f k.
Arguments Await {R A} r k.

Fixpoint bind {A B : Type} (p : prog A) (f : A -> prog B) : prog B :=
  match p with
  | Ret a => f a
  | Throw e => Throw e
  | Read k => Read (fun s => bind (k s) f)
  | Write g k => Write g (bind k f)
  | Await r k => Await r (fun a => bind (k a) f)
  end.

(** [try { p } catch (e) { h e }] *)
Fixpoint try_catch {A : Type} (p : prog A) (h : Error -> prog A) : prog A :=
  match p with
  | Ret a => Ret a
  | Throw e => h e
  | Read k => Read (fun s => try_catch (k s) h)
  | Write g k => Write g (try_catch k h)
  | Await r k => Await r (fun a => try_catch (k a) h)
  end.

(** [try { p } finally { f }], for a [finally] block that completes
    normally. *)
Definition try_finally {A : Type} (p : prog A) (f : prog unit) : prog A :=
  bind (try_catch (bind p (fun a => Ret (Ok a))) (fun e => Ret (Err e)))
       (fun r => bind f (fun _ => match r with Ok a => Ret a | Err e => Throw e end)).

Declare Scope prog_scope.
Delimit Scope prog_scope with prog.
Bind Scope prog_scope with prog.
Notation "x ← y ; z" := (bind y (fun x => z))
  (at level 20, y at level 100, z at level 200, only parsing) : prog_scope.
Notation "y ;; z" := (bind y (fun _ => z))
  (at level 100, z at level 200, only parsing, right associativity) : prog_scope.
Open Scope prog_scope.

Definition ret {A : Type} (a : A) : prog A := Ret a.
Definition throw {A : Type} (e : Error) : prog A := Throw e.
Definition read {A : Type} (f : Page -> A) : prog A := Read (fun s => Ret (f s)).
Definition write (f : Page -> Page) : prog unit := Write f (Ret tt).
Definition await {A : Type} (r : request A) : prog A :=
  Await r (fun a => match a with Ok x => Ret x | Err e => Throw e end).
Definition lift {A : Type} (r : result A) : prog A :=
  match r with Ok a => Ret a | Err e => Throw e end.

Definition console_log (msg : string) : prog unit := write (console_push LLog msg).
Definition console_warn (msg : string) : prog unit := write (console_push LWarn msg).
Definition console_error (msg : string) : prog unit := write (console_push LError msg).
Definition alert (msg : string) : prog unit := write (alert_push msg).

(** *** Running a program to completion *)

Record Outcome (R : Type) := mkOutcome {
  final : Page;
  trace : list event;
  returned : result R
}.
Arguments mkOutcome {R} final trace returned.
Arguments final {R} o.
Arguments trace {R} o.
Arguments returned {R} o.

Fixpoint run_from {R : Type} (w : World) (p : prog R) (s : Page) (tr : list event)
  : Outcome R :=
  match p with
  | Ret r => mkOutcome s tr (Ok r)
  | Throw e => mkOutcome s tr (Err e)
  | Read k => run_from w (k s) s tr
  | Write f k => run_from w k (f s) tr
  | Await r k => let a := respond w r in run_from w (k a) s (tr ++ [Ev r a])
  end.

Definition run {R : Type} (w : World) (p : prog R) (s : Page) : Outcome R :=
  run_from w p s [].

(** *** Running a program up to its next suspension *)

Fixpoint run_sync {R : Type} (p : prog R) (s : Page) : Page * prog R :=
  match p with
  | Read k => run_sync (k s) s
  | Write f k => run_sync k (f s)
  | _ => (s, p)
  end.

(** ** src/app.js *)

Definition WORKFLOW_URL : string := "/back_squat_workflow.json".
Definition TURN_URL : string := "/api/webrtc_turn_config".
Definition PROXY_URL : string := "/api/init-webrtc".

(** [loadWorkflowSpec()] *)
Definition loadWorkflowSpec : prog value :=
  cached ← read WORKFLOW_SPEC;
  if truthy cached then ret cached
  else
    try_catch
      (response ← await (Fetch WORKFLOW_URL);
       (if negb (ok response)
        then throw (mkError ("Failed to load workflow: " +:+ pretty (status response)
                             +:+ " " +:+ statusText response))
        else ret tt);;
       doc ← await (Json response);
       write (set_WORKFLOW_SPEC doc);;
       console_log "[UI] Workflow loaded successfully";;
       read WORKFLOW_SPEC)
      (fun error =>
         console_error "[UI] Failed to load workflow:";;
         throw error).

(** The object literal [{ urls, username, credential }]. *)
Definition iceServer_literal (urls username credential : value) : value :=
  VObj (<["urls" := urls]> (<["username" := username]> (<["credential" := credential]> ∅))).

(** [getTurnCredentials()].  Reading a property of a parsed JSON value has
    no effect, so each of the three is read once and named. *)
Definition getTurnCredentials : prog value :=
  try_catch
    (console_log "[UI] Fetching TURN credentials...";;
     response ← await (Fetch TURN_URL);
     (if negb (ok response)
      then throw (mkError ("Failed to fetch TURN config: " +:+ pretty (status response)
                           +:+ " " +:+ statusText response))
      else ret tt);;
     turnConfig ← await (Json response);
     console_log "[UI] Raw TURN config from API:";;
     config_urls ← lift (get_prop turnConfig "urls");
     if negb (truthy config_urls) then
       console_error "[UI] Invalid TURN config: missing urls field";;
       ret VNull
     else
       config_username ← lift (get_prop turnConfig "username");
       config_credential ← lift (get_prop turnConfig "credential");
       if negb (truthy config_username) || negb (truthy config_credential) then
         console_error "[UI] Invalid TURN config: missing username or credential";;
         ret VNull
       else
         let urls := if isArray config_urls then config_urls else VArr [config_urls] in
         let iceServer := iceServer_literal urls config_username config_credential in
         console_log "[UI] Converted ICE server config:";;
         ret iceServer)
    (fun error =>
       console_error "[UI] Failed to fetch TURN credentials:";;
       ret VNull).

(** [setStatus(text)] *)
Definition setStatus (text : string) : prog unit :=
  write (set_status_text text);;
  console_log "[UI Status]".

(** Google's public STUN server, the fixed first entry. *)
Definition STUN : value :=
  VObj (<["urls" := VArr [VStr "stun:stun.l.google.com:19302"]]> ∅).

(** The ICE list [connectWebcamToRoboflowWebRTC] assembles from what
    [getTurnCredentials] returned. *)
Definition assemble_iceServers (turnServer : value) : list value :=
  if truthy turnServer then [STUN] ++ [turnServer] else [STUN].

(** The [wrtcParams] literal of [connectWebcamToRoboflowWebRTC]. *)
Definition wrtc_params (spec : value) (servers : list value) : WrtcParams :=
  mkWrtcParams spec "image" ["bounding_box_visualization"] ["squat_predictions"] servers.

(** [connectWebcamToRoboflowWebRTC(options)], with [options.workflowSpec]
    as its argument ([undefined] when the caller leaves it out). *)
Definition connectWebcamToRoboflowWebRTC (options_workflowSpec : value) : prog Connection :=
  spec ← (if truthy options_workflowSpec then ret options_workflowSpec
          else loadWorkflowSpec);
  turnServer ← getTurnCredentials;
  (if truthy turnServer
   then console_log "[UI] Using TURN server for enhanced NAT traversal"
   else console_warn "[UI] TURN server unavailable, using STUN only");;
  let servers := assemble_iceServers turnServer in
  console_log "[UI] Final ICE servers configuration:";;
  let connector := PROXY_URL in
  source ← await UseCamera;
  connection ← await (UseStream source connector (wrtc_params spec servers));
  ret connection.

(** [start()] *)
Definition start : prog unit :=
  active ← read activeConnection;
  match active with
  | Some _ => console_warn "Already connected";; ret tt
  | None =>
      write (set_startBtn_disabled true);;
      setStatus "Connecting...";;
      try_catch
        (connection ← connectWebcamToRoboflowWebRTC VUndefined;
         write (set_activeConnection (Some connection));;
         remoteStream ← await (RemoteStream connection);
         write (set_video_srcObject (Some remoteStream));;
         write (set_video_controls false);;
         try_catch
           (src ← read video_srcObject;
            await (Play src);;
            console_log "[UI] Video playing")
           (fun err => console_warn "[UI] Autoplay failed:");;
         setStatus "Connected - Processing video";;
         write (set_stopBtn_disabled false);;
         console_log "[UI] Successfully connected!")
        (fun err =>
           console_error "[UI] Connection failed:";;
           (if includes "API key" (message err)
            then setStatus "Error: Server API key not configured";;
                 alert "Server configuration error. Please check that ROBOFLOW_API_KEY is set in the .env file."
            else setStatus ("Error: " +:+ message err));;
           write (set_startBtn_disabled false);;
           write (set_activeConnection None))
  end.

(** [stop()] *)
Definition stop : prog unit :=
  active ← read activeConnection;
  match active with
  | None => ret tt
  | Some _ =>
      write (set_stopBtn_disabled true);;
      setStatus "Stopping...";;
      try_finally
        (try_catch
           (target ← read activeConnection;
            match target with
            | Some c => await (Cleanup c)
            | None => throw (mkError "Cannot read properties of null (reading 'cleanup')")
            end;;
            console_log "[UI] Cleanup complete")
           (fun err => console_error "[UI] Cleanup error:"))
        (write (set_activeConnection None);;
         write (set_video_srcObject None);;
         write (set_startBtn_disabled false);;
         write (set_stopBtn_disabled true);;
         setStatus "Idle")
  end.

(** ** The event loop: handlers in flight *)

Inductive handler := HStart | HStop.

Definition handler_prog (h : handler) : prog unit :=
  match h with HStart => start | HStop => stop end.

(** The page, the tasks that have been started (each one suspended at an
    [await], or finished), and every request settled so far. *)
Record Machine := mkMachine {
  m_page : Page;
  m_tasks : list (prog unit);
  m_trace : list event
}.

Inductive input :=
| Call (h : handler)            (* the handler function is invoked *)
| ClickStart                    (* a click on startBtn *)
| ClickStop                     (* a click on stopBtn *)
| Resume (i : nat) (w : World). (* the request task [i] awaits settles *)

Definition spawn (p : prog unit) (m : Machine) : Machine :=
  let '(s, rest) := run_sync p (m_page m) in
  mkMachine s (m_tasks m ++ [rest]) (m_trace m).

Definition resume (i : nat) (w : World) (m : Machine) : Machine :=
  match m_tasks m !! i with
  | Some (Await r k) =>
      let a := respond w r in
      let '(s, rest) := run_sync (k a) (m_page m) in
      mkMachine s (<[i := rest]> (m_tasks m)) (m_trace m ++ [Ev r a])
  | _ => m
  end.

(** [startBtn.addEventListener("click", start)] and
    [stopBtn.addEventListener("click", stop)]: a disabled button dispatches
    no click event to its listener. *)
Definition step (m : Machine) (e : input) : Machine :=
  match e with
  | Call h => spawn (handler_prog h) m
  | ClickStart => if startBtn_disabled (m_page m) then m else spawn start m
  | ClickStop => if stopBtn_disabled (m_page m) then m else spawn stop m
  | Resume i w => resume i w m
  end.

Definition exec (m : Machine) (es : list input) : Machine := foldl step m es.

Definition boot : Machine := mkMachine initial_page [] [].

(** ** Observations *)

(** The lifecycle state, read off the page: with a session handle the page
    is [Connected], or [Stopping] once [stop] has written its status;
    without one it is [Connecting] while the start button is disabled and
    [Idle] otherwise. *)
Inductive Lifecycle := Idle | Connecting | Connected | Stopping.

Definition lifecycle (s : Page) : Lifecycle :=
  match activeConnection s with
  | Some _ => if String.eqb (status_text s) "Stopping..." then Stopping else Connected
  | None => if startBtn_disabled s then Connecting else Idle
  end.

Definition is_session_created (e : event) : bool :=
  match e with
  | Ev r a =>
      match r in request T return result T -> bool with
      | UseStream _ _ _ => fun a => match a with Ok _ => true | Err _ => false end
      | _ => fun _ => false
      end a
  end.

Definition is_fetch (url : string) (e : event) : bool :=
  match e with
  | Ev r _ => match r with Fetch u => String.eqb u url | _ => false end
  end.

Definition is_cleanup (e : event) : bool :=
  match e with
  | Ev r _ => match r with Cleanup _ => true | _ => false end
  end.

(** Sessions that negotiation has created. *)
Definition sessions_created (tr : list event) : nat :=
  length (filter (fun e => is_session_created e = true) tr).

Definition fetches (url : string) (tr : list event) : nat :=
  length (filter (fun e => is_fetch url e = true) tr).

Definition cleanups (tr : list event) : nat :=
  length (filter (fun e => is_cleanup e = true) tr).

(** Camera streams the page has opened and not released by a request of
    its own: [useCamera] opens one, the [cleanup()] of a connection stops
    the one it was built from. *)
Definition capture_step (open : list MediaStream) (e : event) : list MediaStream :=
  match e with
  | Ev r a =>
      match r in request T return result T -> list MediaStream with
      | UseCamera => fun a => match a with Ok h => open ++ [h] | Err _ => open end
      | Cleanup c => fun _ => filter (fun h => h ≠ conn_source c) open
      | _ => fun _ => open
      end a
  end.

Definition active_captures (tr : list event) : list MediaStream :=
  foldl capture_step [] tr.

(** The [iceServers] of every [useStream] call in a trace. *)
Definition ice_lists (tr : list event) : list (list value) :=
  omap (fun e => match e with
                 | Ev r _ => match r with
                             | UseStream _ _ p => Some (iceServers p)
                             | _ => None
                             end
                 end) tr.

(** ** What the claims speak of *)

(** A page that differs from [s] only by further console lines. *)
Definition logged (extra : list (level * string)) (s : Page) : Page :=
  mkPage (activeConnection s) (WORKFLOW_SPEC s) (startBtn_disabled s) (stopBtn_disabled s)
         (status_text s) (video_srcObject s) (video_controls s)
         (console s ++ extra) (alerts s).

(** The field [k] of an ICE entry ([undefined] when absent). *)
Definition entry_field (e : value) (k : string) : value :=
  match e with
  | VObj m => default VUndefined (m !! k)
  | _ => VUndefined
  end.

Definition has_field (e : value) (k : string) : bool :=
  match e with
  | VObj m => bool_decide (is_Some (m !! k))
  | _ => false
  end.

Definition fields (e : value) : gset string :=
  match e with
  | VObj m => dom m
  | _ => ∅
  end.

(** Non-empty: present, and neither the empty string nor the empty array. *)
Definition nonempty (v : value) : bool :=
  match v with
  | VUndefined | VNull => false
  | VStr s => negb (String.eqb s "")
  | VArr l => negb (bool_decide (length l = 0))
  | _ => true
  end.

Definition isStringArray (v : value) : bool :=
  match v with
  | VArr l => forallb isString l
  | _ => false
  end.

(** An entry carrying [username] and [credential]. *)
Definition is_turn_entry (e : value) : bool :=
  has_field e "username" && has_field e "credential".

(** [urls] as the code normalizes it. *)
Definition normalized (urls : value) : value :=
  if isArray urls then urls else VArr [urls].

(** The TURN response passes the checks of [getTurnCredentials], with
    these three fields. *)
Definition turn_valid (w : World) (urls username credential : value) : Prop :=
  ∃ resp cfg,
    w_fetch w TURN_URL = Ok resp ∧ ok resp = true ∧ json_body resp = Ok cfg ∧
    get_prop cfg "urls" = Ok urls ∧ get_prop cfg "username" = Ok username ∧
    get_prop cfg "credential" = Ok credential ∧
    truthy urls = true ∧ truthy username = true ∧ truthy credential = true.

(** The field [k] of a TURN response is missing. *)
Definition missing (cfg : value) (k : string) : Prop :=
  match get_prop cfg k with
  | Ok v => truthy v = false
  | Err _ => True
  end.

(** The ways a TURN-configuration fetch fails. *)
Inductive turn_failure (w : World) : Prop :=
| turn_transport (e : Error) :
    w_fetch w TURN_URL = Err e → turn_failure w
| turn_http_status (resp : Response) :
    w_fetch w TURN_URL = Ok resp → ok resp = false → turn_failure w
| turn_bad_json (resp : Response) (e : Error) :
    w_fetch w TURN_URL = Ok resp → json_body resp = Err e → turn_failure w
| turn_bad_shape (resp : Response) (cfg : value) :
    w_fetch w TURN_URL = Ok resp → json_body resp = Ok cfg →
    missing cfg "urls" ∨ missing cfg "username" ∨ missing cfg "credential" →
    turn_failure w.

(** The workflow specification a connection attempt will resolve to: the
    cached one, or the one a successful fetch delivers. *)
Definition workflow_resolves (w : World) (s : Page) (doc : value) : Prop :=
  (truthy (WORKFLOW_SPEC s) = true ∧ doc = WORKFLOW_SPEC s) ∨
  (truthy (WORKFLOW_SPEC s) = false ∧
   ∃ resp, w_fetch w WORKFLOW_URL = Ok resp ∧ ok resp = true ∧ json_body resp = Ok doc).

(** The ways a workflow-specification fetch fails, with the error it
    raises. *)
Inductive workflow_failure (w : World) : Error → Prop :=
| workflow_transport (e : Error) :
    w_fetch w WORKFLOW_URL = Err e → workflow_failure w e
| workflow_http_status (resp : Response) :
    w_fetch w WORKFLOW_URL = Ok resp → ok resp = false →
    workflow_failure w (mkError ("Failed to load workflow: " +:+ pretty (status resp)
                                 +:+ " " +:+ statusText resp))
| workflow_bad_json (resp : Response) (e : Error) :
    w_fetch w WORKFLOW_URL = Ok resp → ok resp = true → json_body resp = Err e →
    workflow_failure w e.

(** The rollback as the specification words it: no capture handle left
    open, the page back in [Idle], no session handle retained. *)
Definition rollback_as_stated (o : Outcome unit) : Prop :=
  active_captures (trace o) = [] ∧
  lifecycle (final o) = Idle ∧
  activeConnection (final o) = None.

(** The ICE invariant as the specification words it: every entry has
    non-empty [urls], a TURN entry has non-empty [username] and [credential],
    no entry has a [ttl]. *)
Definition ice_entry_as_stated (e : value) : Prop :=
  nonempty (entry_field e "urls") = true ∧
  (is_turn_entry e = true →
   nonempty (entry_field e "username") = true ∧
   nonempty (entry_field e "credential") = true) ∧
  has_field e "ttl" = false.

(** What the code guarantees of an entry: [urls] is an array, a TURN entry
    has truthy [username] and [credential], there is no [ttl]. *)
Definition ice_entry_checked (e : value) : Prop :=
  isArray (entry_field e "urls") = true ∧
  (is_turn_entry e = true →
   truthy (entry_field e "username") = true ∧
   truthy (entry_field e "credential") = true) ∧
  has_field e "ttl" = false.

(** A call of [start] that is a no-op: the task it spawns has already
    returned, no request was issued, and the page is as before but for the
    console. *)
Definition start_call_is_noop (m : Machine) : Prop :=
  ∃ extra,
    step m (Call HStart) =
    mkMachine (logged extra (m_page m)) (m_tasks m ++ [Ret tt]) (m_trace m).

(** The request task [i] awaits settles, once per world of the list. *)
Fixpoint resume_all (i : nat) (ws : list World) (m : Machine) : Machine :=
  match ws with
  | [] => m
  | w :: rest => resume_all i rest (resume i w m)
  end.


(** C5 as the specification words it: the entry produced from a response
    that passes validation has an array of strings for [urls]. *)
Definition urls_as_stated (w : World) (s : Page) : Prop :=
  ∀ urls username credential entry,
    turn_valid w urls username credential →
    returned (run w getTurnCredentials s) = Ok entry →
    isStringArray (entry_field entry "urls") = true.

(** C9 as the specification words it, for the loader run on page [s] in
    world [w]: after a successful load no later call fetches. *)
Definition load_once_as_stated (w : World) (s : Page) : Prop :=
  ∀ doc, returned (run w loadWorkflowSpec s) = Ok doc →
         ∀ w', fetches WORKFLOW_URL
                 (trace (run w' loadWorkflowSpec (final (run w loadWorkflowSpec s)))) = 0.

(** A program that, run on pages whose cache holds [doc], never writes
    the cache and never fetches the workflow document, whatever it is
    answered. *)
Fixpoint quiet {R : Type} (doc : value) (p : prog R) : Prop :=
  match p with
  | Ret _ | Throw _ => True
  | Read k => ∀ s, WORKFLOW_SPEC s = doc → quiet doc (k s)
  | Write f k => (∀ s, WORKFLOW_SPEC s = doc → WORKFLOW_SPEC (f s) = doc) ∧ quiet doc k
  | Await r k => ∀ a, is_fetch WORKFLOW_URL (Ev r a) = false ∧ quiet doc (k a)
  end.

(** The document is cached and no task in flight is inside an older load. *)
Definition cache_settled (doc : value) (m : Machine) : Prop :=
  WORKFLOW_SPEC (m_page m) = doc ∧ Forall (quiet doc) (m_tasks m).

(** Inputs the page can receive: clicks and settled requests.  [start] and
    [stop] are not exported and are bound to the two buttons only. *)
Definition dispatched (e : input) : bool :=
  match e with Call _ => false | _ => true end.

(** The workflow document [w] serves, if it serves one, is truthy. *)
Definition serves_truthy (w : World) : bool :=
  match w_fetch w WORKFLOW_URL with
  | Ok resp => match json_body resp with Ok doc => truthy doc | Err _ => true end
  | Err _ => true
  end.

Definition truthy_documents (e : input) : bool :=
  match e with Resume _ w => serves_truthy w | _ => true end.

(** A task from page [s] on, in worlds that serve truthy documents, as
    long as the cache is unset: it keeps the session handle null, it is
    suspended only with the start button disabled, and once it writes a
    truthy document to the cache the rest of it is [quiet]. *)
Fixpoint loads (p : prog unit) (s : Page) : Prop :=
  match p with
  | Ret _ | Throw _ => truthy (WORKFLOW_SPEC s) = false ∧ activeConnection s = None
  | Read k => loads (k s) s
  | Write f k =>
      if truthy (WORKFLOW_SPEC (f s)) then quiet (WORKFLOW_SPEC (f s)) k
      else loads k (f s)
  | Await r k =>
      truthy (WORKFLOW_SPEC s) = false ∧ activeConnection s = None ∧
      startBtn_disabled s = true ∧
      ∀ w, serves_truthy w = true → loads (k (respond w r)) s
  end.

Definition finished (p : prog unit) : Prop :=
  match p with Ret _ | Throw _ => True | _ => False end.

(** Task [i] is inside a load, every other task has finished. *)
Definition loader_pending (m : Machine) (i : nat) : Prop :=
  ∃ A (r : request A) k,
    m_tasks m !! i = Some (Await r k) ∧ loads (Await r k) (m_page m) ∧
    ∀ j q, j ≠ i → m_tasks m !! j = Some q → finished q.

(** What holds of the page and its tasks under clicks and settled
    requests, from a page without a session and without tasks. *)
Definition loading_inv (m : Machine) : Prop :=
  (truthy (WORKFLOW_SPEC (m_page m)) = true ∧
   cache_settled (WORKFLOW_SPEC (m_page m)) m) ∨
  (truthy (WORKFLOW_SPEC (m_page m)) = false ∧ activeConnection (m_page m) = None ∧
   (Forall finished (m_tasks m) ∨ ∃ i, loader_pending m i)).

(** *** Sample worlds *)

Definition sample_workflow : value :=
  VObj (<["version" := VStr "1.0"]> (<["steps" := VArr []]> ∅)).

Definition sample_turn (urls : value) : value :=
  VObj (<["urls" := urls]> (<["username" := VStr "user"]>
       (<["credential" := VStr "secret"]> (<["ttl" := VNum 3600]> ∅)))).

(** Every request succeeds; the TURN service answers [turn]. *)
Definition world_with_turn (turn : result Response) : World :=
  mkWorld (fun url => if String.eqb url WORKFLOW_URL
                      then Ok (mkResponse 200 "OK" (Ok sample_workflow))
                      else turn)
          (Ok 7)
          (fun src _ _ => Ok (mkConnection 1 src))
          (fun _ => Ok 9)
          (fun _ => Ok tt)
          (fun _ => Ok tt).

Definition world_good : World :=
  world_with_turn (Ok (mkResponse 200 "OK" (Ok (sample_turn (VStr "turn:relay.example:3478"))))).

(** The TURN service answers with an empty [urls] array. *)
Definition world_empty_urls : World :=
  world_with_turn (Ok (mkResponse 200 "OK" (Ok (sample_turn (VArr []))))).

(** The TURN service answers with a port number for [urls]. *)
Definition world_numeric_urls : World :=
  world_with_turn (Ok (mkResponse 200 "OK" (Ok (sample_turn (VNum 3478))))).

(** The TURN response lacks [username]. *)
Definition world_no_username : World :=
  world_with_turn
    (Ok (mkResponse 200 "OK"
           (Ok (VObj (<["urls" := VStr "turn:relay.example:3478"]>
                     (<["credential" := VStr "secret"]> ∅)))))).

(** The camera opens, the negotiation is rejected. *)
Definition world_negotiation_fails : World :=
  mkWorld (w_fetch world_good) (Ok 7)
          (fun _ _ _ => Err (mkError "Failed to initialize WebRTC"))
          (fun _ => Ok 9) (fun _ => Ok tt) (fun _ => Ok tt).

(** The workflow document cannot be fetched. *)
Definition world_no_workflow : World :=
  mkWorld (fun _ => Err (mkError "Failed to fetch")) (Ok 7)
          (fun src _ _ => Ok (mkConnection 1 src))
          (fun _ => Ok 9) (fun _ => Ok tt) (fun _ => Ok tt).

(** [cleanup()] rejects. *)
Definition world_cleanup_fails : World :=
  mkWorld (w_fetch world_good) (Ok 7)
          (fun src _ _ => Ok (mkConnection 1 src))
          (fun _ => Ok 9) (fun _ => Ok tt)
          (fun _ => Err (mkError "peer connection already closed")).

(** A connected page. *)
Definition connected_page : Page :=
  mkPage (Some (mkConnection 1 7)) sample_workflow true false
         "Connected - Processing video" (Some 9) false [] [].

(** Two calls of [start], the second while the first awaits its first
    request, then both tasks resumed in turn until they have finished. *)
Definition duplicate_start_schedule : list input :=
  [Call HStart; Call HStart] ++ concat (replicate 8 [Resume 0 world_good; Resume 1 world_good]).

(** ** The backend endpoints *)

Module Server.

(** Modelled from the spec: the Express backend (server.js) is not among
    the sources; what follows is the specification's contract of its
    health endpoint and of the credential proxy (sections 4.1, 4.3 and 7). *)
Record Config := mkConfig {
  ROBOFLOW_API_KEY : option string
}.

Record HealthResponse := mkHealth {
  health_status : string;
  apiKeyConfigured : bool;
  health_message : string
}.

(** Modelled from the spec: [GET /api/health -> {status, apiKeyConfigured,
    message}], read-only, carrying only a boolean presence flag.  The
    specification does not fix the texts; [texts] gives status and message
    for a present and for an absent key. *)
Definition health (texts : bool → string * string) (c : Config) : HealthResponse :=
  let present := match ROBOFLOW_API_KEY c with Some _ => true | None => false end in
  mkHealth (fst (texts present)) present (snd (texts present)).

Record Offer := mkOffer { offer_sdp : string; offer_type : string }.

Record ProxyRequest := mkProxyRequest { offer : Offer; wrtcParams : value }.

Record Answer := mkAnswer {
  answer_sdp : string;
  answer_type : string;
  pipeline_id : string;
  request_id : string
}.

(** The error taxonomy of section 7, as far as the proxy raises it. *)
Inductive ErrorClass := ConfigurationFault | NegotiationFailure.

(** The remote inference service: the key, the forwarded request, and
    what comes back. *)
Definition Remote := string → ProxyRequest → result Answer.

Record ProxyResult := mkProxyResult {
  reply : Answer + ErrorClass;
  forwarded : list (string * ProxyRequest)   (* the remote calls made *)
}.

(** Modelled from the spec: [POST /api/init-webrtc(offer, wrtcParams) ->
    answer].  Without a key the proxy refuses to forward and reports a
    configuration fault; with one it attaches the key, forwards, and
    returns the remote answer verbatim or a negotiation failure. *)
Definition init_webrtc (c : Config) (remote : Remote) (req : ProxyRequest) : ProxyResult :=
  match ROBOFLOW_API_KEY c with
  | None => mkProxyResult (inr ConfigurationFault) []
  | Some key =>
      match remote key req with
      | Ok answer => mkProxyResult (inl answer) [(key, req)]
      | Err _ => mkProxyResult (inr NegotiationFailure) [(key, req)]
      end
  end.

End Server.

(** ** The rest of src/app.js *)

Definition HEALTH_URL : string := "/api/health".

(** The [pagehide] and [beforeunload] listeners: [cleanup()] is called on
    the active connection and its promise is dropped; the handle stays. *)
Definition on_unload : prog unit :=
  active ← read activeConnection;
  match active with
  | Some c => Await (Cleanup c) (fun _ => Ret tt)
  | None => ret tt
  end.

(** The health check made when the script loads:
    [fetch('/api/health').then(res => res.json()).then(data => ...).catch(...)]. *)
Definition healthCheck : prog unit :=
  try_catch
    (res ← await (Fetch HEALTH_URL);
     data ← await (Json res);
     console_log "[UI] Server health:";;
     configured ← lift (get_prop data "apiKeyConfigured");
     if negb (truthy configured)
     then console_warn "[UI] Warning: Server API key not configured"
     else ret tt)
    (fun err => console_error "[UI] Failed to check server health:").

(** *** Further observations *)

Definition is_play_rejected (e : event) : bool :=
  match e with
  | Ev r a =>
      match r in request T return result T → bool with
      | Play _ => fun a => match a with Ok _ => false | Err _ => true end
      | _ => fun _ => false
      end a
  end.

Definition is_remoteStream_rejected (e : event) : bool :=
  match e with
  | Ev r a =>
      match r in request T return result T → bool with
      | RemoteStream _ => fun a => match a with Ok _ => false | Err _ => true end
      | _ => fun _ => false
      end a
  end.

Definition is_camera_request (e : event) : bool :=
  match e with
  | Ev r _ => match r with UseCamera => true | _ => false end
  end.

(** The [workflowSpec] of every [useStream] call in a trace. *)
Definition workflow_specs (tr : list event) : list value :=
  omap (fun e => match e with
                 | Ev r _ => match r with
                             | UseStream _ _ p => Some (workflowSpec p)
                             | _ => None
                             end
                 end) tr.

(** The error a settled request hands to the code that awaited it: the
    rejection itself, and, for a response to the workflow fetch with a
    status outside 200-299, the error [loadWorkflowSpec] throws for it. *)
Definition failure_of (e : event) : option Error :=
  match e with
  | Ev r a =>
      match r in request T return result T → option Error with
      | Fetch url => fun a =>
          match a with
          | Err e => Some e
          | Ok response =>
              if String.eqb url WORKFLOW_URL && negb (ok response)
              then Some (mkError ("Failed to load workflow: " +:+ pretty (status response)
                                  +:+ " " +:+ statusText response))
              else None
          end
      | _ => fun a => match a with Err e => Some e | Ok _ => None end
      end a
  end.

(** The error that stopped a run: that of its last request. *)
Definition stopped_by (tr : list event) : option Error :=
  last tr ≫= failure_of.

(** The status line [start] writes for the error [e]. *)
Definition error_status (e : Error) : string :=
  if includes "API key" (message e)
  then "Error: Server API key not configured"
  else "Error: " +:+ message e.

(** The alerts [start] raises for the error [e]. *)
Definition error_alerts (e : Error) : list string :=
  if includes "API key" (message e)
  then ["Server configuration error. Please check that ROBOFLOW_API_KEY is set in the .env file."]
  else [].

(** The TURN service answers with a valid entry, [videoEl.play()] is
    refused. *)
Definition world_autoplay_blocked : World :=
  mkWorld (w_fetch world_good) (Ok 7)
          (fun src _ _ => Ok (mkConnection 1 src))
          (fun _ => Ok 9)
          (fun _ => Err (mkError "play() failed because the user didn't interact with the document first"))
          (fun _ => Ok tt).

(** The session is negotiated, its remote stream never arrives. *)
Definition world_no_remote_stream : World :=
  mkWorld (w_fetch world_good) (Ok 7)
          (fun src _ _ => Ok (mkConnection 1 src))
          (fun _ => Err (mkError "Remote stream timeout"))
          (fun _ => Ok tt)
          (fun _ => Ok tt).

(** The camera is refused. *)
Definition world_no_camera : World :=
  mkWorld (w_fetch world_good) (Err (mkError "Permission denied"))
          (fun src _ _ => Ok (mkConnection 1 src))
          (fun _ => Ok 9) (fun _ => Ok tt) (fun _ => Ok tt).

(** The workflow document served is [null]. *)
Definition world_null_workflow : World :=
  mkWorld (fun _ => Ok (mkResponse 200 "OK" (Ok VNull))) (Ok 7)
          (fun src _ _ => Ok (mkConnection 1 src))
          (fun _ => Ok 9) (fun _ => Ok tt) (fun _ => Ok tt).

(** The health endpoint answers 500 with an error body. *)
Definition world_health_500 : World :=
  mkWorld (fun _ => Ok (mkResponse 500 "Internal Server Error"
                          (Ok (VObj (<["error" := VStr "boom"]> ∅)))))
          (Ok 7) (fun src _ _ => Ok (mkConnection 1 src))
          (fun _ => Ok 9) (fun _ => Ok tt) (fun _ => Ok tt).

(** ** Fullscreen: [toggleFullscreen], [updateFullscreenButton],
       [checkFullscreenSupport] *)

Module Fullscreen.

(** The standard API and the three vendor-prefixed ones, in the order the
    code tries them. *)
Inductive api := Standard | Webkit | Moz | Ms.

(** [videoContainer] and [videoEl]. *)
Inductive element := VideoContainer | VideoEl.

(** A thrown value, with the two properties the code reads. *)
Record DomError := mkDomError { err_name : string; err_message : string }.

(** What the browser exposes while a handler runs. *)
Record Browser := mkBrowser {
  (* document.fullscreenElement, .webkitFullscreenElement,
     .mozFullScreenElement, .msFullscreenElement is set *)
  fullscreen_element : api → bool;
  (* document.exitFullscreen, .webkitExitFullscreen, .mozCancelFullScreen,
     .msExitFullscreen exists *)
  exit_method : api → bool;
  (* el.requestFullscreen, .webkitRequestFullscreen, .mozRequestFullScreen,
     .msRequestFullscreen exists *)
  request_method : element → api → bool
}.

(** The calls into the fullscreen API. *)
Inductive call :=
| RequestFullscreen (el : element) (a : api)
| ExitFullscreen (a : api).

(** How each call settles: [None] when it resolves, the error when it
    throws or rejects. *)
Definition Answers := call → option DomError.

(** What the three functions write: the calls made, the console, the
    alerts, the fullscreen button and the container's [fullscreen] class. *)
Record Ui := mkUi {
  calls : list call;
  lines : list (level * string);
  popups : list string;
  btn_text : string;         (* fullscreenBtn.textContent *)
  btn_disabled : bool;       (* fullscreenBtn.disabled *)
  btn_title : string;        (* fullscreenBtn.title *)
  container_class : bool     (* videoContainer.classList has "fullscreen" *)
}.

Inductive settled (A : Type) : Type :=
| Resolved (a : A)
| Rejected (e : DomError).
Arguments Resolved {A} a.
Arguments Rejected {A} e.

Definition M (A : Type) : Type := Ui → Ui * settled A.

Definition mret {A : Type} (a : A) : M A := fun ui => (ui, Resolved a).

Definition mbind {A B : Type} (m : M A) (f : A → M B) : M B :=
  fun ui => match m ui with
            | (ui', Resolved a) => f a ui'
            | (ui', Rejected e) => (ui', Rejected e)
            end.

(** [try { m } catch (e) { h e }] *)
Definition mcatch {A : Type} (m : M A) (h : DomError → M A) : M A :=
  fun ui => match m ui with
            | (ui', Resolved a) => (ui', Resolved a)
            | (ui', Rejected e) => h e ui'
            end.

Declare Scope fs_scope.
Delimit Scope fs_scope with fs.
Notation "y ;; z" := (mbind y (fun _ => z))
  (at level 100, z at level 200, only parsing, right associativity) : fs_scope.
Local Open Scope fs_scope.

Definition say (l : level) (msg : string) : M unit :=
  fun ui => (mkUi (calls ui) (lines ui ++ [(l, msg)]) (popups ui) (btn_text ui)
                  (btn_disabled ui) (btn_title ui) (container_class ui), Resolved tt).

Definition popup (msg : string) : M unit :=
  fun ui => (mkUi (calls ui) (lines ui) (popups ui ++ [msg]) (btn_text ui)
                  (btn_disabled ui) (btn_title ui) (container_class ui), Resolved tt).

(** [await el.requestFullscreen(...)] and the like. *)
Definition invoke (answers : Answers) (c : call) : M unit :=
  fun ui => (mkUi (calls ui ++ [c]) (lines ui) (popups ui) (btn_text ui)
                  (btn_disabled ui) (btn_title ui) (container_class ui),
             match answers c with
             | None => Resolved tt
             | Some e => Rejected e
             end).

(** [!!(document.fullscreenElement || document.webkitFullscreenElement ||
        document.mozFullScreenElement || document.msFullscreenElement)] *)
Definition isFullscreen (b : Browser) : bool :=
  fullscreen_element b Standard || fullscreen_element b Webkit ||
  fullscreen_element b Moz || fullscreen_element b Ms.

(** [toggleFullscreen()] *)
Definition toggleFullscreen (b : Browser) (answers : Answers) : M unit :=
  mcatch
    (if negb (isFullscreen b) then
       say LLog "[UI] Attempting to enter fullscreen...";;
       if request_method b VideoContainer Standard then
         invoke answers (RequestFullscreen VideoContainer Standard);;
         say LLog "[UI] Entered fullscreen (standard API)"
       else if request_method b VideoContainer Webkit then
         invoke answers (RequestFullscreen VideoContainer Webkit);;
         say LLog "[UI] Entered fullscreen (webkit)"
       else if request_method b VideoContainer Moz then
         invoke answers (RequestFullscreen VideoContainer Moz);;
         say LLog "[UI] Entered fullscreen (moz)"
       else if request_method b VideoContainer Ms then
         invoke answers (RequestFullscreen VideoContainer Ms);;
         say LLog "[UI] Entered fullscreen (ms)"
       else
         say LError "[UI] Fullscreen API not supported in this browser";;
         popup "Fullscreen is not supported in this browser"
     else
       say LLog "[UI] Attempting to exit fullscreen...";;
       (if exit_method b Standard then invoke answers (ExitFullscreen Standard)
        else if exit_method b Webkit then invoke answers (ExitFullscreen Webkit)
        else if exit_method b Moz then invoke answers (ExitFullscreen Moz)
        else if exit_method b Ms then invoke answers (ExitFullscreen Ms)
        else mret tt);;
       say LLog "[UI] Exited fullscreen")
    (fun error =>
       say LError "[UI] Fullscreen error:";;
       if String.eqb (err_name error) "NotAllowedError" then
         popup "Fullscreen was denied. Please allow fullscreen permissions and try again."
       else if String.eqb (err_name error) "TypeError" then
         say LWarn "[UI] Fullscreen API may not be available (possibly in iframe)";;
         mcatch
           (if request_method b VideoEl Standard
            then invoke answers (RequestFullscreen VideoEl Standard)
            else if request_method b VideoEl Webkit
            then invoke answers (RequestFullscreen VideoEl Webkit)
            else mret tt)
           (fun videoError =>
              say LError "[UI] Video element fullscreen also failed:";;
              popup "Unable to enter fullscreen. This may be due to browser restrictions or iframe limitations.")
       else
         popup ("An error occurred while trying to toggle fullscreen: "
                +:+ err_message error)).

(** [updateFullscreenButton()] *)
Definition updateFullscreenButton (b : Browser) (ui : Ui) : Ui :=
  let full := isFullscreen b in
  mkUi (calls ui) (lines ui) (popups ui)
       (if full then "⛶ Exit Fullscreen" else "⛶ Fullscreen")
       (btn_disabled ui) (btn_title ui)
       full.

(** [support.available] of [checkFullscreenSupport]. *)
Definition available (b : Browser) : bool :=
  request_method b VideoContainer Standard || request_method b VideoContainer Webkit ||
  request_method b VideoContainer Moz || request_method b VideoContainer Ms.

(** [checkFullscreenSupport()] *)
Definition checkFullscreenSupport (b : Browser) (ui : Ui) : Ui :=
  let ui1 := fst (say LLog "[UI] Fullscreen API support:" ui) in
  if negb (available b) then
    let ui2 := fst (say LWarn "[UI] Fullscreen API not supported - button may not work" ui1) in
    mkUi (calls ui2) (lines ui2) (popups ui2) (btn_text ui2)
         true "Fullscreen not supported in this browser" (container_class ui2)
  else ui1.

(** The container requests among the calls made. *)
Definition is_container_request (c : call) : bool :=
  match c with RequestFullscreen VideoContainer _ => true | _ => false end.

Definition is_video_request (c : call) : bool :=
  match c with RequestFullscreen VideoEl _ => true | _ => false end.

Definition is_exit (c : call) : bool :=
  match c with ExitFullscreen _ => true | _ => false end.

(** The first of the four the browser has, in the order of the code. *)
Definition first_of (has : api → bool) : option api :=
  if has Standard then Some Standard
  else if has Webkit then Some Webkit
  else if has Moz then Some Moz
  else if has Ms then Some Ms
  else None.

(** A page on which nothing has been written yet. *)
Definition blank : Ui := mkUi [] [] [] "⛶ Fullscreen" false "" false.

(** A browser with the standard API only, not in fullscreen. *)
Definition standard_browser : Browser :=
  mkBrowser (fun _ => false)
            (fun a => match a with Standard => true | _ => false end)
            (fun _ a => match a with Standard => true | _ => false end).

(** A WebKit browser showing the container in fullscreen. *)
Definition webkit_fullscreen_browser : Browser :=
  mkBrowser (fun a => match a with Webkit => true | _ => false end)
            (fun a => match a with Webkit => true | _ => false end)
            (fun _ a => match a with Webkit => true | _ => false end).

(** A browser without any fullscreen API. *)
Definition bare_browser : Browser :=
  mkBrowser (fun _ => false) (fun _ => false) (fun _ _ => false).

Definition all_resolve : Answers := fun _ => None.

(** Every call is refused. *)
Definition all_denied : Answers :=
  fun _ => Some (mkDomError "NotAllowedError" "Permissions check failed").

(** Every call throws a TypeError. *)
Definition all_type_error : Answers :=
  fun _ => Some (mkDomError "TypeError" "fullscreen error").

End Fullscreen.

(** * Properties *)

Arguments iceServer_literal : simpl never.
Arguments wrtc_params : simpl never.
Arguments STUN : simpl never.
Arguments pretty : simpl never.
Arguments includes : simpl never.

(** ** Running programs *)

Section RunFacts.
Context {R : Type} (w : World).

(** The trace a run starts from is only ever extended. *)
Lemma run_from_frame (p : prog R) (s : Page) (tr : list event) :
  run_from w p s tr =
  mkOutcome (final (run w p s)) (tr ++ trace (run w p s)) (returned (run w p s)).
Proof.
  unfold run. revert s tr.
  induction p as [r|e|k IH|f k IH|A r k IH]; intros s tr; simpl.
  - by rewrite app_nil_r.
  - by rewrite app_nil_r.
  - apply IH.
  - apply IH.
  - rewrite (IH _ s (tr ++ _)), (IH _ s [Ev _ _]). simpl. by rewrite <- app_assoc.
Qed.

End RunFacts.

Lemma filter_length_app {A : Type} (P : A → Prop) `{∀ x, Decision (P x)} (l k : list A) :
  length (filter P (l ++ k)) = length (filter P l) + length (filter P k).
Proof. by rewrite filter_app, length_app. Qed.

Lemma fetches_app (url : string) (l k : list event) :
  fetches url (l ++ k) = fetches url l + fetches url k.
Proof. apply filter_length_app. Qed.

(** *** Symbolic execution

    A run is evaluated on a page given by its fields, up to the next answer
    of the world or the next test the code makes; there the proof uses what
    it knows, or splits. *)

Ltac run_eval :=
  lazy beta iota zeta delta
    [run run_from run_sync bind try_catch try_finally ret throw read write await lift
     console_log console_warn console_error alert setStatus respond
     start stop connectWebcamToRoboflowWebRTC loadWorkflowSpec getTurnCredentials
     handler_prog final trace returned
     activeConnection WORKFLOW_SPEC startBtn_disabled stopBtn_disabled status_text
     video_srcObject video_controls console alerts
     set_activeConnection set_WORKFLOW_SPEC set_startBtn_disabled set_stopBtn_disabled
     set_status_text set_video_srcObject set_video_controls console_push alert_push
     negb orb andb].

Ltac run_hyp :=
  match goal with
  | |- context [truthy (iceServer_literal ?a ?b ?c)] =>
      change (truthy (iceServer_literal a b c)) with true
  | |- context [truthy VNull] => change (truthy VNull) with false
  | |- context [truthy VUndefined] => change (truthy VUndefined) with false
  | H : w_fetch ?w ?u = _ |- context [w_fetch ?w ?u] => rewrite H
  | H : json_body ?r = _ |- context [json_body ?r] => rewrite H
  | H : ok ?r = _ |- context [ok ?r] => rewrite H
  | H : truthy ?v = _ |- context [truthy ?v] => rewrite H
  | H : get_prop ?v ?k = _ |- context [get_prop ?v ?k] => rewrite H
  | H : w_useCamera ?w = _ |- context [w_useCamera ?w] => rewrite H
  | H : w_useStream ?w ?a ?b ?c = _ |- context [w_useStream ?w ?a ?b ?c] => rewrite H
  | H : ∀ x, w_useStream ?w ?a ?b (wrtc_params ?d x) = _
    |- context [w_useStream ?w ?a ?b (wrtc_params ?d ?l)] => rewrite (H l)
  | H : w_remoteStream ?w ?c = _ |- context [w_remoteStream ?w ?c] => rewrite H
  | H : w_play ?w ?m = _ |- context [w_play ?w ?m] => rewrite H
  | H : w_cleanup ?w ?c = _ |- context [w_cleanup ?w ?c] => rewrite H
  | H : includes ?a ?b = _ |- context [includes ?a ?b] => rewrite H
  end; run_eval.

Ltac run_case :=
  match goal with
  | |- context [match w_fetch ?w ?u with _ => _ end] =>
      destruct (w_fetch w u) as [?resp|?err] eqn:?
  | |- context [match json_body ?r with _ => _ end] =>
      destruct (json_body r) as [?cfg|?err] eqn:?
  | |- context [match w_useCamera ?w with _ => _ end] =>
      destruct (w_useCamera w) as [?cam|?err] eqn:?
  | |- context [match w_useStream ?w ?a ?b ?c with _ => _ end] =>
      destruct (w_useStream w a b c) as [?conn|?err] eqn:?
  | |- context [match w_remoteStream ?w ?c with _ => _ end] =>
      destruct (w_remoteStream w c) as [?remote|?err] eqn:?
  | |- context [match w_play ?w ?m with _ => _ end] =>
      destruct (w_play w m) as [[]|?err] eqn:?
  | |- context [match w_cleanup ?w ?c with _ => _ end] =>
      destruct (w_cleanup w c) as [[]|?err] eqn:?
  | |- context [match get_prop ?v ?k with _ => _ end] =>
      destruct (get_prop v k) as [?field|?err] eqn:?
  | |- context [if ok ?r then _ else _] => destruct (ok r) eqn:?
  | |- context [if truthy ?v then _ else _] => destruct (truthy v) eqn:?
  | |- context [if includes ?a ?b then _ else _] => destruct (includes a b) eqn:?
  end; run_eval.

Ltac run_all := run_eval; repeat first [run_hyp | run_case].

(** Replace a page by its fields. *)
Ltac open_page s :=
  destruct s as [?active ?cached ?startOff ?stopOff ?text ?sink ?controls ?lines ?popups];
  cbn [activeConnection WORKFLOW_SPEC startBtn_disabled stopBtn_disabled status_text
       video_srcObject video_controls console alerts] in *;
  subst.

(** Keep one copy of the run in the goal: [o = run w p s → ...]. *)
Ltac focus_run w p s :=
  let o := fresh "o" in
  let Ho := fresh "Ho" in
  remember (run w p s) as o eqn:Ho; revert Ho.

(** A page built by console calls on [s] is [s] with more console lines. *)
Ltac solve_logged :=
  unfold logged; cbn [activeConnection WORKFLOW_SPEC startBtn_disabled stopBtn_disabled
                      status_text video_srcObject video_controls console alerts];
  f_equal; rewrite <- ?app_assoc; try reflexivity;
  instantiate (1 := []); by rewrite app_nil_r.

(** ** The event loop *)

Lemma exec_resumes (i : nat) (ws : list World) (m : Machine) :
  exec m (map (Resume i) ws) = resume_all i ws m.
Proof.
  revert m. induction ws as [|w ws IH]; intros m; [done|]. apply IH.
Qed.

Lemma exec_cons (m : Machine) (e : input) (es : list input) :
  exec m (e :: es) = exec (step m e) es.
Proof. reflexivity. Qed.


(** A task that has returned is not resumed. *)
Lemma resume_all_returned (ws : list World) (s : Page) (tr : list event) :
  resume_all 0 ws (mkMachine s [Ret tt] tr) = mkMachine s [Ret tt] tr.
Proof. induction ws as [|w ws IH]; [done|]. apply IH. Qed.

Ltac machine_eval :=
  lazy beta iota zeta delta
    [resume spawn step m_page m_tasks m_trace lookup list_lookup insert list_insert
     run run_from run_sync bind try_catch try_finally ret throw read write await lift
     console_log console_warn console_error alert setStatus respond
     start stop connectWebcamToRoboflowWebRTC loadWorkflowSpec getTurnCredentials
     handler_prog final trace returned
     activeConnection WORKFLOW_SPEC startBtn_disabled stopBtn_disabled status_text
     video_srcObject video_controls console alerts
     set_activeConnection set_WORKFLOW_SPEC set_startBtn_disabled set_stopBtn_disabled
     set_status_text set_video_srcObject set_video_controls console_push alert_push
     negb orb andb].

Ltac machine_case :=
  match goal with
  | |- context [truthy (iceServer_literal ?a ?b ?c)] =>
      change (truthy (iceServer_literal a b c)) with true
  | |- context [truthy VNull] => change (truthy VNull) with false
  | |- context [truthy VUndefined] => change (truthy VUndefined) with false
  | |- context [match w_fetch ?w ?u with _ => _ end] =>
      destruct (w_fetch w u) as [?resp|?err] eqn:?
  | |- context [match json_body ?r with _ => _ end] =>
      destruct (json_body r) as [?cfg|?err] eqn:?
  | |- context [match w_useCamera ?w with _ => _ end] =>
      destruct (w_useCamera w) as [?cam|?err] eqn:?
  | |- context [match w_useStream ?w ?a ?b ?c with _ => _ end] =>
      destruct (w_useStream w a b c) as [?conn|?err] eqn:?
  | |- context [match w_remoteStream ?w ?c with _ => _ end] =>
      destruct (w_remoteStream w c) as [?remote|?err] eqn:?
  | |- context [match w_play ?w ?m with _ => _ end] =>
      destruct (w_play w m) as [[]|?err] eqn:?
  | |- context [match get_prop ?v ?k with _ => _ end] =>
      destruct (get_prop v k) as [?field|?err] eqn:?
  | |- context [if ok ?r then _ else _] => destruct (ok r) eqn:?
  | |- context [if truthy ?v then _ else _] => destruct (truthy v) eqn:?
  | |- context [if includes ?a ?b then _ else _] => destruct (includes a b) eqn:?
  end; machine_eval.

(** ** The TURN credential lookup *)

(** The literal has exactly the three fields. *)
Lemma iceServer_literal_fields (urls username credential : value) :
  fields (iceServer_literal urls username credential)
  = {["urls"; "username"; "credential"]}.
Proof.
  unfold iceServer_literal, fields.
  rewrite !dom_insert_L, dom_empty_L.
  apply set_eq. intros k.
  rewrite !elem_of_union, !elem_of_singleton, elem_of_empty. tauto.
Qed.

Lemma iceServer_literal_field (urls username credential : value) (k : string) :
  entry_field (iceServer_literal urls username credential) k =
  if decide (k = "urls") then urls
  else if decide (k = "username") then username
  else if decide (k = "credential") then credential
  else VUndefined.
Proof.
  unfold iceServer_literal, entry_field.
  repeat case_decide; subst.
  - by rewrite lookup_insert_eq.
  - rewrite lookup_insert_ne by done. by rewrite lookup_insert_eq.
  - rewrite !lookup_insert_ne by done. by rewrite lookup_insert_eq.
  - rewrite !lookup_insert_ne by done. by rewrite lookup_empty.
Qed.

Lemma iceServer_literal_has_field (urls username credential : value) (k : string) :
  has_field (iceServer_literal urls username credential) k =
  bool_decide (k = "urls" ∨ k = "username" ∨ k = "credential").
Proof.
  unfold iceServer_literal, has_field.
  apply bool_decide_ext.
  rewrite <- elem_of_dom, !dom_insert_L, dom_empty_L.
  rewrite !elem_of_union, !elem_of_singleton, elem_of_empty. tauto.
Qed.

(** Whatever the world answers, the lookup returns, never throws, changes
    nothing but the console, and what it returns is [null] or the literal
    built from a response that passed the checks. *)
Lemma getTurnCredentials_run (w : World) (s : Page) :
  ∃ extra v,
    final (run w getTurnCredentials s) = logged extra s ∧
    returned (run w getTurnCredentials s) = Ok v ∧
    (v = VNull ∨
     ∃ urls username credential,
       turn_valid w urls username credential ∧
       v = iceServer_literal (normalized urls) username credential).
Proof.
  focus_run w getTurnCredentials s. open_page s.
  run_all; intros ->;
    (eexists _, _; split; [solve_logged|]; split; [reflexivity|]);
    try (left; reflexivity).
  right. eexists _, _, _. split; [|reflexivity].
  eexists _, _. repeat split; eassumption.
Qed.
(** C5, as stated, fails: a response whose [urls] is a number passes the
    presence checks and is wrapped as it is, so the entry's [urls] is an
    array that holds a number. *)
Lemma numeric_urls_counterexample :
  ¬ urls_as_stated world_numeric_urls initial_page.
Proof.
  intros H.
  specialize (H (VNum 3478) (VStr "user") (VStr "secret")
                (iceServer_literal (VArr [VNum 3478]) (VStr "user") (VStr "secret"))).
  assert (V : turn_valid world_numeric_urls (VNum 3478) (VStr "user") (VStr "secret")).
  { eexists _, _. repeat split; reflexivity. }
  specialize (H V eq_refl). vm_compute in H. discriminate.
Qed.

(** C5, amended: a TURN response that passes validation yields an entry
    with exactly the fields [urls], [username] and [credential] ([ttl] and
    every other field are gone), with [username] and [credential] those of
    the response, and with [urls] an array: the response's [urls] itself
    when that is an array, else a one-element array holding it.  The
    elements are not checked: [urls] is an array of strings exactly when
    the response gave a string or an array of strings. *)
Theorem getTurnCredentials_normalizes
    (w : World) (s : Page) (urls username credential : value) :
  turn_valid w urls username credential →
  ∃ entry,
    returned (run w getTurnCredentials s) = Ok entry ∧
    fields entry = {["urls"; "username"; "credential"]} ∧
    has_field entry "ttl" = false ∧
    entry_field entry "urls" = normalized urls ∧
    isArray (entry_field entry "urls") = true ∧
    (isArray urls = true → entry_field entry "urls" = urls) ∧
    (isArray urls = false → entry_field entry "urls" = VArr [urls]) ∧
    isStringArray (entry_field entry "urls") = isString urls || isStringArray urls ∧
    entry_field entry "username" = username ∧
    entry_field entry "credential" = credential.
Proof.
  intros (resp & cfg & Hfetch & Hok & Hjson & Hu & Hn & Hc & Tu & Tn & Tc).
  exists (iceServer_literal (normalized urls) username credential).
  split.
  { focus_run w getTurnCredentials s. open_page s. run_all. by intros ->. }
  split; [apply iceServer_literal_fields|].
  split; [by rewrite iceServer_literal_has_field|].
  rewrite !iceServer_literal_field. simpl.
  repeat split; unfold normalized.
  - by destruct urls.
  - by intros ->.
  - by intros ->.
  - by destruct urls.
Qed.

Lemma getTurnCredentials_normalizes_witness :
  turn_valid world_good (VStr "turn:relay.example:3478") (VStr "user") (VStr "secret") ∧
  ∃ entry,
    returned (run world_good getTurnCredentials initial_page) = Ok entry ∧
    fields entry = {["urls"; "username"; "credential"]} ∧
    has_field entry "ttl" = false ∧
    entry_field entry "urls" = VArr [VStr "turn:relay.example:3478"].
Proof.
  assert (V : turn_valid world_good (VStr "turn:relay.example:3478")
                (VStr "user") (VStr "secret")).
  { eexists _, _. repeat split; reflexivity. }
  split; [exact V|].
  destruct (getTurnCredentials_normalizes world_good initial_page _ _ _ V)
    as (entry & Hr & Hf & Ht & Hu & _).
  exists entry. repeat split; assumption.
Defined.

(** ** The ICE-server list *)

Lemma STUN_checked : ice_entry_checked STUN.
Proof. repeat split; intros; done. Qed.

Lemma STUN_urls_nonempty : nonempty (entry_field STUN "urls") = true.
Proof. reflexivity. Qed.

Lemma turn_entry_checked (urls username credential : value) :
  truthy username = true → truthy credential = true →
  ice_entry_checked (iceServer_literal (normalized urls) username credential).
Proof.
  intros Tn Tc. unfold ice_entry_checked.
  rewrite iceServer_literal_has_field, !iceServer_literal_field. simpl.
  repeat split; try done.
  unfold normalized. by destruct urls.
Qed.

(** An array that [normalized] leaves empty was the empty array. *)
Lemma normalized_empty (urls : value) :
  truthy urls = true → nonempty (normalized urls) = false → urls = VArr [].
Proof.
  unfold normalized. destruct urls as [| | | | |l|]; simpl; try done.
  destruct l; [done|]. by rewrite bool_decide_eq_false_2.
Qed.

(** C3, as stated, fails: a TURN response whose [urls] is the empty array
    passes the presence checks, and the list handed to the SDK then holds
    an entry with empty [urls]. *)
Lemma ice_servers_empty_urls_counterexample :
  ∃ l, ice_lists (trace (run world_empty_urls start initial_page)) = [l] ∧
       ¬ Forall ice_entry_as_stated l.
Proof.
  eexists. split; [vm_compute; reflexivity|].
  intros H. apply Forall_cons in H as [_ H]. apply Forall_cons in H as [[H _] _].
  vm_compute in H. discriminate.
Qed.

(** C3, amended: every list assembled for a connection attempt is the STUN
    entry alone, or the STUN entry followed by the entry built from a TURN
    response that passed the checks.  Each entry has an array for [urls]
    and no [ttl]; the TURN entry has truthy (for strings: non-empty)
    [username] and [credential]; and [urls] is empty only when the response
    gave the empty array. *)
Theorem ice_servers_checked (w : World) (opt : value) (s : Page) (l : list value) :
  l ∈ ice_lists (trace (run w (connectWebcamToRoboflowWebRTC opt) s)) →
  (l = [STUN] ∨
   ∃ urls username credential,
     turn_valid w urls username credential ∧
     l = [STUN; iceServer_literal (normalized urls) username credential]) ∧
  Forall ice_entry_checked l ∧
  (∀ e, e ∈ l → nonempty (entry_field e "urls") = false →
        ∃ username credential, turn_valid w (VArr []) username credential).
Proof.
  assert (Hnull : ∀ l0, l0 ∈ [assemble_iceServers VNull] →
    (l0 = [STUN] ∨
     ∃ urls username credential,
       turn_valid w urls username credential ∧
       l0 = [STUN; iceServer_literal (normalized urls) username credential]) ∧
    Forall ice_entry_checked l0 ∧
    (∀ e, e ∈ l0 → nonempty (entry_field e "urls") = false →
          ∃ username credential, turn_valid w (VArr []) username credential)).
  { intros l0 ->%list_elem_of_singleton. simpl. split; [by left|]. split.
    - constructor; [apply STUN_checked|constructor].
    - intros e ->%list_elem_of_singleton. by rewrite STUN_urls_nonempty. }
  assert (Hturn : ∀ l0 urls username credential,
    turn_valid w urls username credential →
    l0 ∈ [assemble_iceServers (iceServer_literal (normalized urls) username credential)] →
    (l0 = [STUN] ∨
     ∃ urls username credential,
       turn_valid w urls username credential ∧
       l0 = [STUN; iceServer_literal (normalized urls) username credential]) ∧
    Forall ice_entry_checked l0 ∧
    (∀ e, e ∈ l0 → nonempty (entry_field e "urls") = false →
          ∃ username credential, turn_valid w (VArr []) username credential)).
  { intros l0 urls username credential V ->%list_elem_of_singleton.
    change (assemble_iceServers (iceServer_literal (normalized urls) username credential))
      with [STUN; iceServer_literal (normalized urls) username credential].
    pose proof V as (resp & cfg & _ & _ & _ & _ & _ & _ & Tu & Tn & Tc).
    split; [right; by eexists _, _, _|]. split.
    - constructor; [apply STUN_checked|].
      constructor; [by apply turn_entry_checked|constructor].
    - intros e [->|[->|[]%elem_of_nil]%elem_of_cons]%elem_of_cons.
      + by rewrite STUN_urls_nonempty.
      + rewrite iceServer_literal_field. simpl. intros Hempty.
        apply normalized_empty in Hempty; [|done]. subst urls. by eexists _, _. }
  focus_run w (connectWebcamToRoboflowWebRTC opt) s. open_page s.
  run_all; intros -> Hl; simpl in Hl;
    try (by apply elem_of_nil in Hl);
    try (by apply Hnull).
  all: eapply Hturn; [|exact Hl]; eexists _, _; repeat split; eassumption.
Qed.

Lemma ice_servers_checked_witness :
  [STUN; iceServer_literal (VArr [VStr "turn:relay.example:3478"]) (VStr "user") (VStr "secret")]
    ∈ ice_lists (trace (run world_good (connectWebcamToRoboflowWebRTC VUndefined) initial_page)) ∧
  Forall ice_entry_checked
    [STUN; iceServer_literal (VArr [VStr "turn:relay.example:3478"]) (VStr "user") (VStr "secret")].
Proof.
  assert (H : [STUN; iceServer_literal (VArr [VStr "turn:relay.example:3478"])
                       (VStr "user") (VStr "secret")]
    ∈ ice_lists (trace (run world_good (connectWebcamToRoboflowWebRTC VUndefined) initial_page))).
  { vm_compute. left. }
  split; [exact H|].
  exact (proj1 (proj2 (ice_servers_checked _ _ _ _ H))).
Defined.

(** ** Degrading to STUN only *)

(** Decide the field a malformed TURN response lacks. *)
Ltac split_shape H :=
  unfold missing in H;
  destruct H as [H|[H|H]];
  [ destruct (get_prop _ "urls") eqn:?
  | destruct (get_prop _ "username") eqn:?
  | destruct (get_prop _ "credential") eqn:? ].

(** A failed TURN fetch makes the lookup return [null]; it does not throw. *)
Lemma getTurnCredentials_unavailable (w : World) (s : Page) :
  turn_failure w → returned (run w getTurnCredentials s) = Ok VNull.
Proof.
  intros [e H|resp H Hok|resp e H Hjson|resp cfg H Hjson Hshape];
    [| | |split_shape Hshape];
    focus_run w getTurnCredentials s; open_page s;
    run_all; by intros ->.
Qed.

(** C4: when the TURN fetch fails in transport, by status, by a body that
    does not parse, or by a body lacking [urls], [username] or
    [credential], the lookup returns [null] without throwing, the list
    handed to the SDK is the STUN entry alone, and with camera and
    negotiation succeeding the page ends up [Connected]. *)
Theorem turn_failure_degrades_to_stun
    (w : World) (s : Page) (doc : value) (cam remote : MediaStream) (conn : Connection) :
  activeConnection s = None →
  workflow_resolves w s doc →
  turn_failure w →
  w_useCamera w = Ok cam →
  w_useStream w cam PROXY_URL (wrtc_params doc [STUN]) = Ok conn →
  w_remoteStream w conn = Ok remote →
  (∀ s0, returned (run w getTurnCredentials s0) = Ok VNull) ∧
  ice_lists (trace (run w start s)) = [[STUN]] ∧
  sessions_created (trace (run w start s)) = 1 ∧
  returned (run w start s) = Ok tt ∧
  activeConnection (final (run w start s)) = Some conn ∧
  video_srcObject (final (run w start s)) = Some remote ∧
  lifecycle (final (run w start s)) = Connected.
Proof.
  intros Hidle Hdoc Hturn Hcam Hneg Hremote.
  split; [intros s0; by apply getTurnCredentials_unavailable|].
  change [STUN] with (assemble_iceServers VNull) in Hneg.
  focus_run w start s.
  destruct Hdoc as [[Hc ->]|[Hc (wresp & Hw & Hwok & Hwjson)]];
    destruct Hturn as [e H|resp H Hok|resp e H Hjson|resp cfg H Hjson Hshape];
    [| | |split_shape Hshape| | | |split_shape Hshape];
    open_page s; run_all; intros ->; repeat split; reflexivity.
Qed.

Lemma turn_failure_degrades_to_stun_witness :
  turn_failure world_no_username ∧
  ice_lists (trace (run world_no_username start initial_page)) = [[STUN]] ∧
  lifecycle (final (run world_no_username start initial_page)) = Connected.
Proof.
  assert (F : turn_failure world_no_username).
  { eapply turn_bad_shape; [reflexivity|reflexivity|]. right. left. reflexivity. }
  split; [exact F|].
  assert (D : workflow_resolves world_no_username initial_page sample_workflow).
  { right. split; [reflexivity|]. eexists. repeat split; reflexivity. }
  pose proof (turn_failure_degrades_to_stun world_no_username initial_page
                sample_workflow 7 9 (mkConnection 1 7)
                eq_refl D F eq_refl eq_refl eq_refl) as (_ & Hl & _ & _ & _ & _ & Hc).
  split; assumption.
Defined.

(** ** Rollback after a failed negotiation *)

(** C2, as stated, fails: [start] opens the camera, the negotiation is
    rejected, and nothing stops the camera stream. *)
Lemma rollback_leaves_camera_open_counterexample :
  ¬ rollback_as_stated (run world_negotiation_fails start initial_page).
Proof.
  intros [H _]. vm_compute in H. discriminate.
Qed.

(** C2, amended: when the camera opens and the negotiation is rejected,
    [start] returns normally with the page in [Idle], no session handle,
    the start button enabled and the error in the status line; no session
    was created, and [start] issues no release of its own, so the camera
    stream it handed to the SDK is still counted as open. *)
Theorem negotiation_failure_returns_to_idle
    (w : World) (s : Page) (doc : value) (cam : MediaStream) (e : Error) :
  activeConnection s = None →
  workflow_resolves w s doc →
  w_useCamera w = Ok cam →
  (∀ servers, w_useStream w cam PROXY_URL (wrtc_params doc servers) = Err e) →
  returned (run w start s) = Ok tt ∧
  lifecycle (final (run w start s)) = Idle ∧
  activeConnection (final (run w start s)) = None ∧
  startBtn_disabled (final (run w start s)) = false ∧
  status_text (final (run w start s)) =
    (if includes "API key" (message e)
     then "Error: Server API key not configured"
     else "Error: " +:+ message e) ∧
  sessions_created (trace (run w start s)) = 0 ∧
  cleanups (trace (run w start s)) = 0 ∧
  active_captures (trace (run w start s)) = [cam].
Proof.
  intros Hidle Hdoc Hcam Hneg.
  focus_run w start s.
  destruct Hdoc as [[Hc ->]|[Hc (wresp & Hw & Hwok & Hwjson)]];
    open_page s; run_all; intros ->; repeat split; reflexivity.
Qed.

Lemma negotiation_failure_returns_to_idle_witness :
  lifecycle (final (run world_negotiation_fails start initial_page)) = Idle ∧
  active_captures (trace (run world_negotiation_fails start initial_page)) = [7].
Proof.
  assert (D : workflow_resolves world_negotiation_fails initial_page sample_workflow).
  { right. split; [reflexivity|]. eexists. repeat split; reflexivity. }
  pose proof (negotiation_failure_returns_to_idle world_negotiation_fails initial_page
                sample_workflow 7 (mkError "Failed to initialize WebRTC")
                eq_refl D eq_refl (fun _ => eq_refl))
    as (_ & Hl & _ & _ & _ & _ & _ & Hc).
  split; assumption.
Defined.

(** ** Teardown *)

(** C7: a stop request on a connected page calls [cleanup()] on the
    session; whether that call resolves or rejects, [stop] returns
    normally (a rejection is logged with [console.error], not rethrown),
    and the page is [Idle]: session handle cleared, media sink cleared,
    start button enabled. *)
Theorem stop_completes_unconditionally (w : World) (s : Page) (c : Connection) :
  activeConnection s = Some c →
  trace (run w stop s) = [Ev (Cleanup c) (w_cleanup w c)] ∧
  returned (run w stop s) = Ok tt ∧
  activeConnection (final (run w stop s)) = None ∧
  video_srcObject (final (run w stop s)) = None ∧
  startBtn_disabled (final (run w stop s)) = false ∧
  lifecycle (final (run w stop s)) = Idle ∧
  (∀ e, w_cleanup w c = Err e →
        (LError, "[UI] Cleanup error:") ∈ console (final (run w stop s))).
Proof.
  intros Hc. focus_run w stop s. open_page s. run_all; intros ->.
  - repeat split; try reflexivity. intros e He. discriminate.
  - repeat split; try reflexivity. intros e He.
    cbn [final console]. rewrite !elem_of_app, !list_elem_of_singleton. tauto.
Qed.

Lemma stop_completes_unconditionally_witness :
  activeConnection connected_page = Some (mkConnection 1 7) ∧
  returned (run world_cleanup_fails stop connected_page) = Ok tt ∧
  lifecycle (final (run world_cleanup_fails stop connected_page)) = Idle.
Proof.
  pose proof (stop_completes_unconditionally world_cleanup_fails connected_page
                (mkConnection 1 7) eq_refl) as (_ & Hr & _ & _ & _ & Hl & _).
  repeat split; assumption.
Defined.



(** ** The workflow specification cache *)

(** With a document cached, the loader returns it at once. *)
Lemma loadWorkflowSpec_cached (w : World) (s : Page) :
  truthy (WORKFLOW_SPEC s) = true →
  run w loadWorkflowSpec s = mkOutcome s [] (Ok (WORKFLOW_SPEC s)).
Proof.
  intros Hc. open_page s. run_all. reflexivity.
Qed.

(** A quiet program leaves the cache as it is up to its next suspension,
    and what is left of it is quiet. *)
Lemma run_sync_quiet {R : Type} (doc : value) (p : prog R) (s : Page) :
  quiet doc p → WORKFLOW_SPEC s = doc →
  WORKFLOW_SPEC (fst (run_sync p s)) = doc ∧ quiet doc (snd (run_sync p s)).
Proof.
  revert s. induction p as [r|e|k IH|f k IH|A r k IH]; intros s Hq Hs; simpl in *.
  - done.
  - done.
  - apply IH; [by apply Hq | done].
  - destruct Hq as [Hf Hk]. apply IH; [done | by apply Hf].
  - done.
Qed.

Ltac quiet_eval :=
  lazy beta iota zeta delta
    [quiet bind try_catch try_finally ret throw read write await lift
     console_log console_warn console_error alert setStatus
     start stop connectWebcamToRoboflowWebRTC loadWorkflowSpec getTurnCredentials
     handler_prog negb orb andb].

Ltac quiet_step :=
  match goal with
  | |- True => exact I
  | |- _ ∧ _ => split
  | |- _ = _ => first [assumption | reflexivity]
  | |- ∀ _, _ => intro
  | H : WORKFLOW_SPEC ?s = ?doc |- context [truthy (WORKFLOW_SPEC ?s)] => rewrite H
  | H : truthy ?v = _ |- context [truthy ?v] => rewrite H
  | |- context [truthy (iceServer_literal ?a ?b ?c)] =>
      change (truthy (iceServer_literal a b c)) with true
  | |- context [truthy VNull] => change (truthy VNull) with false
  | |- context [truthy VUndefined] => change (truthy VUndefined) with false
  | |- context [match ?x with Ok _ => _ | Err _ => _ end] => destruct x
  | |- context [match ?x with Some _ => _ | None => _ end] => destruct x
  | |- context [if ?b then _ else _] => destruct b eqn:?
  end; quiet_eval.

Ltac solve_quiet := quiet_eval; repeat quiet_step.

(** With a truthy document cached, [start] and [stop] are quiet. *)
Lemma handler_quiet (doc : value) (h : handler) :
  truthy doc = true → quiet doc (handler_prog h).
Proof.
  intros Hdoc. destruct h; solve_quiet.
Qed.

Lemma fetches_single (url : string) (e : event) :
  is_fetch url e = false → fetches url [e] = 0.
Proof.
  intros H. unfold fetches. rewrite filter_cons, filter_nil.
  by rewrite decide_False by (by rewrite H).
Qed.

(** A settled cache stays settled when a quiet task is spawned and when a
    task is resumed; neither fetches the document. *)
Lemma spawn_settled (doc : value) (p : prog unit) (m : Machine) :
  quiet doc p → cache_settled doc m →
  cache_settled doc (spawn p m) ∧ m_trace (spawn p m) = m_trace m.
Proof.
  intros Hp [Hs Ht]. unfold spawn.
  destruct (run_sync_quiet doc p (m_page m) Hp Hs) as [Hs' Hq].
  destruct (run_sync p (m_page m)) as [s' rest].
  cbn [fst snd] in Hs', Hq.
  split; [split|reflexivity]; cbn [m_page m_tasks].
  - exact Hs'.
  - apply Forall_app. split; [done|]. by constructor.
Qed.

Lemma resume_settled (doc : value) (i : nat) (w : World) (m : Machine) :
  cache_settled doc m →
  cache_settled doc (resume i w m) ∧
  fetches WORKFLOW_URL (m_trace (resume i w m)) = fetches WORKFLOW_URL (m_trace m).
Proof.
  intros [Hs Ht]. unfold resume.
  destruct (m_tasks m !! i) as [[r|e|k|f k|A r k]|] eqn:Hi; try done.
  assert (Hq : quiet doc (Await r k)).
  { eapply Forall_lookup_1; eassumption. }
  destruct (Hq (respond w r)) as [Hf Hk].
  destruct (run_sync_quiet doc _ (m_page m) Hk Hs) as [Hs' Hq'].
  destruct (run_sync (k (respond w r)) (m_page m)) as [s' rest].
  cbn [fst snd] in Hs', Hq'. cbn [m_page m_tasks m_trace].
  split; [split|].
  - exact Hs'.
  - by apply Forall_insert.
  - rewrite fetches_app, (fetches_single WORKFLOW_URL (Ev r (respond w r)) Hf). lia.
Qed.

Lemma resume_all_settled (doc : value) (i : nat) (ws : list World) (m : Machine) :
  cache_settled doc m →
  cache_settled doc (resume_all i ws m) ∧
  fetches WORKFLOW_URL (m_trace (resume_all i ws m)) = fetches WORKFLOW_URL (m_trace m).
Proof.
  revert m. induction ws as [|w ws IH]; intros m Hm; [done|].
  cbn [resume_all]. destruct (resume_settled doc i w m Hm) as [Hm' Hf].
  destruct (IH _ Hm') as [? ->]. done.
Qed.

(** Once the document is cached and no older load is in flight, no input
    whatever (clicks, calls of the handlers, requests settling in any
    order) leads to another fetch of it or to a write of the cache. *)
Lemma exec_settled (doc : value) (es : list input) (m : Machine) :
  truthy doc = true → cache_settled doc m →
  cache_settled doc (exec m es) ∧
  fetches WORKFLOW_URL (m_trace (exec m es)) = fetches WORKFLOW_URL (m_trace m).
Proof.
  intros Hdoc. revert m. induction es as [|e es IH]; intros m Hm; [done|].
  rewrite exec_cons.
  assert (Hstep : cache_settled doc (step m e) ∧
                  fetches WORKFLOW_URL (m_trace (step m e))
                  = fetches WORKFLOW_URL (m_trace m)).
  { destruct e as [h| | |i w]; cbn [step].
    - destruct (spawn_settled doc (handler_prog h) m (handler_quiet doc h Hdoc) Hm)
        as [? ->]. done.
    - destruct (startBtn_disabled (m_page m)); [done|].
      destruct (spawn_settled doc start m (handler_quiet doc HStart Hdoc) Hm) as [? ->].
      done.
    - destruct (stopBtn_disabled (m_page m)); [done|].
      destruct (spawn_settled doc stop m (handler_quiet doc HStop Hdoc) Hm) as [? ->].
      done.
    - by apply resume_settled. }
  destruct Hstep as [Hm' Hf]. destruct (IH _ Hm') as [? ->]. done.
Qed.

(** The first attempt on an idle page whose cache is unset: once the page
    holds a truthy document, it was fetched once and the attempt is past
    its load. *)
Lemma first_load_settles (s : Page) (ws : list World) (doc : value) :
  activeConnection s = None →
  truthy (WORKFLOW_SPEC s) = false →
  truthy doc = true →
  WORKFLOW_SPEC (m_page (resume_all 0 ws (spawn start (mkMachine s [] [])))) = doc →
  cache_settled doc (resume_all 0 ws (spawn start (mkMachine s [] []))) ∧
  fetches WORKFLOW_URL (m_trace (resume_all 0 ws (spawn start (mkMachine s [] [])))) = 1.
Proof.
  intros Hidle Hunset Hdoc. open_page s.
  machine_eval. cbn [app]. change (truthy VUndefined) with false. machine_eval.
  rewrite Hunset. machine_eval.
  destruct ws as [|w1 ws]; cbn [resume_all].
  { cbn [m_page WORKFLOW_SPEC]. intros ->. congruence. }
  machine_eval. destruct (w_fetch w1 WORKFLOW_URL) as [resp|e]; machine_eval.
  2: { repeat machine_case; rewrite resume_all_returned;
       cbn [m_page WORKFLOW_SPEC]; intros ->; congruence. }
  destruct (ok resp) eqn:Hok; machine_eval.
  2: { repeat machine_case; rewrite resume_all_returned;
       cbn [m_page WORKFLOW_SPEC]; intros ->; congruence. }
  destruct ws as [|w2 ws]; cbn [resume_all].
  { cbn [m_page WORKFLOW_SPEC]. intros ->. congruence. }
  machine_eval. destruct (json_body resp) as [loaded|e]; machine_eval.
  2: { repeat machine_case; rewrite resume_all_returned;
       cbn [m_page WORKFLOW_SPEC]; intros ->; congruence. }
  match goal with |- context [resume_all 0 ws ?m] => set (m2 := m) end.
  intros Hafter.
  change (WORKFLOW_SPEC (m_page (resume_all 0 ws m2)) = doc) in Hafter.
  change (cache_settled doc (resume_all 0 ws m2) ∧
          fetches WORKFLOW_URL (m_trace (resume_all 0 ws m2)) = 1).
  assert (H2 : cache_settled loaded m2).
  { split; [reflexivity|]. constructor; [|constructor]. solve_quiet. }
  destruct (resume_all_settled loaded 0 ws m2 H2) as [[Hs Ht] Hf].
  rewrite Hs in Hafter. subst loaded. repeat split; [done..|].
  rewrite Hf. reflexivity.
Qed.

Lemma finished_quiet (doc : value) (p : prog unit) : finished p → quiet doc p.
Proof. by destruct p. Qed.

(** Up to its next suspension, a task inside a load either caches a
    truthy document, and is quiet from there on, or is still inside the
    load. *)
Lemma run_sync_loads (p : prog unit) (s : Page) :
  loads p s →
  (truthy (WORKFLOW_SPEC (fst (run_sync p s))) = true ∧
   quiet (WORKFLOW_SPEC (fst (run_sync p s))) (snd (run_sync p s))) ∨
  (loads (snd (run_sync p s)) (fst (run_sync p s)) ∧
   (finished (snd (run_sync p s)) ∨
    ∃ A (r : request A) k, snd (run_sync p s) = Await r k)).
Proof.
  revert s. induction p as [r|e|k IH|f k IH|A r k IH]; intros s Hl; cbn [run_sync].
  - right. split; [exact Hl | by left].
  - right. split; [exact Hl | by left].
  - apply IH, Hl.
  - cbn [loads] in Hl. destruct (truthy (WORKFLOW_SPEC (f s))) eqn:Ht.
    + left. destruct (run_sync_quiet _ k (f s) Hl eq_refl) as [Hs Hq].
      rewrite Hs. by split.
    + by apply IH.
  - right. split; [exact Hl | right; by eexists _, _, _].
Qed.

Ltac loads_eval :=
  lazy beta iota zeta delta
    [loads quiet bind try_catch try_finally ret throw read write await lift
     console_log console_warn console_error alert setStatus respond
     start stop connectWebcamToRoboflowWebRTC loadWorkflowSpec getTurnCredentials
     handler_prog
     activeConnection WORKFLOW_SPEC startBtn_disabled stopBtn_disabled status_text
     video_srcObject video_controls console alerts
     set_activeConnection set_WORKFLOW_SPEC set_startBtn_disabled set_stopBtn_disabled
     set_status_text set_video_srcObject set_video_controls console_push alert_push
     negb orb andb].

(** [start] on a page without a session and with the cache unset. *)
Lemma loads_start (s : Page) :
  truthy (WORKFLOW_SPEC s) = false → activeConnection s = None → loads start s.
Proof.
  intros Hunset Hidle. open_page s.
  loads_eval. repeat (rewrite Hunset; loads_eval).
  change (truthy VUndefined) with false. loads_eval.
  repeat (rewrite Hunset; loads_eval).
  repeat split; try assumption. intros w Hw. unfold serves_truthy in Hw.
  destruct (w_fetch w WORKFLOW_URL) as [resp|e]; loads_eval.
  2: { repeat (rewrite Hunset; loads_eval);
       repeat (destruct (includes _ _); loads_eval; repeat (rewrite Hunset; loads_eval)).
       all: by split. }
  destruct (ok resp); loads_eval.
  2: { repeat (rewrite Hunset; loads_eval);
       repeat (destruct (includes _ _); loads_eval; repeat (rewrite Hunset; loads_eval)).
       all: by split. }
  repeat split; try assumption. intros _ _.
  destruct (json_body resp) as [doc|e]; loads_eval.
  2: { repeat (rewrite Hunset; loads_eval);
       repeat (destruct (includes _ _); loads_eval; repeat (rewrite Hunset; loads_eval)).
       all: by split. }
  rewrite Hw. solve_quiet.
Qed.

Lemma run_sync_stop_idle (s : Page) :
  activeConnection s = None → run_sync stop s = (s, Ret tt).
Proof. intros Hidle. open_page s. reflexivity. Qed.

(** The three inputs the page can receive keep the invariant. *)
Lemma spawn_start_loading (m : Machine) :
  truthy (WORKFLOW_SPEC (m_page m)) = false → activeConnection (m_page m) = None →
  Forall finished (m_tasks m) → loading_inv (spawn start m).
Proof.
  intros Hu Hi Hf. unfold spawn.
  pose proof (run_sync_loads start (m_page m) (loads_start _ Hu Hi)) as H.
  destruct (run_sync start (m_page m)) as [s' p']. cbn [fst snd] in H.
  destruct H as [[Ht Hq]|[Hl Hshape]].
  - left. cbn [m_page m_tasks]. split; [done|]. split; [done|].
    apply Forall_app. split; [|by constructor].
    eapply Forall_impl; [exact Hf|]. intros q; apply finished_quiet.
  - right. cbn [m_page m_tasks].
    destruct Hshape as [Hfin | (A & r & k & ->)].
    + assert (Hl' : truthy (WORKFLOW_SPEC s') = false ∧ activeConnection s' = None).
      { by destruct p'. }
      destruct Hl' as [? ?]. split; [done|]. split; [done|]. left.
      apply Forall_app. split; [done | by constructor].
    + pose proof Hl as (Hu' & Hi' & Hb & Hk).
      split; [done|]. split; [done|]. right. exists (length (m_tasks m)), A, r, k.
      cbn [m_page m_tasks]. split; [|split; [exact Hl|]].
      * by rewrite lookup_app_r, Nat.sub_diag by lia.
      * intros j q Hj Hq. apply lookup_app_Some in Hq as [Hq | [Hlen Hq]].
        -- eapply Forall_lookup_1; eassumption.
        -- destruct (j - length (m_tasks m)) as [|n] eqn:Hn; [lia|].
           by rewrite lookup_cons, lookup_nil in Hq.
Qed.

Lemma spawn_stop_loading (m : Machine) :
  loading_inv m → activeConnection (m_page m) = None → loading_inv (spawn stop m).
Proof.
  intros Hinv Hi. unfold spawn. rewrite (run_sync_stop_idle _ Hi).
  destruct Hinv as [[Ht [Hd Hq]]|(Hu & _ & Htasks)].
  - left. cbn [m_page m_tasks]. split; [done|]. split; [done|].
    apply Forall_app. split; [done | by constructor].
  - right. cbn [m_page m_tasks]. split; [done|]. split; [done|].
    destruct Htasks as [Hf | (i & A & r & k & Hlook & Hl & Hrest)].
    + left. apply Forall_app. split; [done | by constructor].
    + right. exists i, A, r, k. cbn [m_page m_tasks]. split; [|split; [exact Hl|]].
      * apply lookup_app_l_Some, Hlook.
      * intros j q Hj Hq. apply lookup_app_Some in Hq as [Hq | [Hlen Hq]].
        -- by eapply Hrest.
        -- destruct (j - length (m_tasks m)) as [|n] eqn:Hn.
           ++ rewrite lookup_cons in Hq. by injection Hq as <-.
           ++ by rewrite lookup_cons, lookup_nil in Hq.
Qed.

Lemma resume_finished (i : nat) (w : World) (m : Machine) :
  (∀ q, m_tasks m !! i = Some q → finished q) → resume i w m = m.
Proof.
  intros Hf. unfold resume.
  destruct (m_tasks m !! i) as [[ret|e|k|f k|A r k]|]; try done.
  by pose proof (Hf _ eq_refl).
Qed.

Lemma resume_loading (i : nat) (w : World) (m : Machine) :
  serves_truthy w = true → loading_inv m → loading_inv (resume i w m).
Proof.
  intros Hw [[Ht Hs]|(Hu & Hi & Htasks)].
  { destruct (resume_settled _ i w m Hs) as [[Hd Hq] _].
    left. rewrite Hd. split; [done|]. by split. }
  destruct Htasks as [Hf | (i' & A & r & k & Hlook & Hl & Hrest)].
  { rewrite resume_finished.
    - right. split; [done|]. split; [done|]. by left.
    - intros q Hq. eapply Forall_lookup_1; eassumption. }
  destruct (decide (i = i')) as [->|Hne].
  2: { rewrite resume_finished.
       - right. split; [done|]. split; [done|]. right. by exists i', A, r, k.
       - intros q Hq. by eapply Hrest. }
  unfold resume. rewrite Hlook.
  pose proof Hl as (_ & _ & _ & Hk).
  pose proof (run_sync_loads _ (m_page m) (Hk w Hw)) as H.
  destruct (run_sync (k (respond w r)) (m_page m)) as [s' p']. cbn [fst snd] in H.
  assert (Hlen : i' < length (m_tasks m)) by (by eapply lookup_lt_Some).
  destruct H as [[Ht Hq]|[Hl' Hshape]].
  - left. cbn [m_page m_tasks]. split; [done|]. split; [done|].
    apply Forall_lookup. intros j q Hj.
    apply list_lookup_insert_Some in Hj as [(-> & <- & _) | (Hne & Hj)]; [done|].
    apply finished_quiet. eapply Hrest; [|exact Hj]. done.
  - right. cbn [m_page m_tasks].
    destruct Hshape as [Hfin | (A' & r' & k' & ->)].
    + assert (Hend : truthy (WORKFLOW_SPEC s') = false ∧ activeConnection s' = None).
      { by destruct p'. }
      destruct Hend as [? ?]. split; [done|]. split; [done|]. left.
      apply Forall_lookup. intros j q Hj.
      apply list_lookup_insert_Some in Hj as [(-> & <- & _) | (Hne & Hj)]; [done|].
      eapply Hrest; [|exact Hj]. done.
    + pose proof Hl' as (Hu' & Hi' & _).
      split; [done|]. split; [done|]. right. exists i', A', r', k'.
      cbn [m_page m_tasks]. split; [|split; [exact Hl'|]].
      * by apply list_lookup_insert_eq.
      * intros j q Hne Hj. rewrite list_lookup_insert_ne in Hj by done.
        by eapply Hrest.
Qed.

(** The invariant holds under every click and every settled request. *)
Lemma step_loading (m : Machine) (e : input) :
  dispatched e = true → truthy_documents e = true →
  loading_inv m → loading_inv (step m e).
Proof.
  intros Hd Hw Hinv. destruct e as [h| | |i w]; cbn [step]; [done| | |].
  - destruct (startBtn_disabled (m_page m)) eqn:Hb; [done|].
    destruct Hinv as [[Ht Hs]|(Hu & Hi & Htasks)].
    + destruct (spawn_settled _ start m (handler_quiet _ HStart Ht) Hs) as [[Hd' Hq] _].
      left. rewrite Hd'. split; [done|]. by split.
    + destruct Htasks as [Hf | (i & A & r & k & _ & (_ & _ & Hoff & _) & _)].
      * by apply spawn_start_loading.
      * congruence.
  - destruct (stopBtn_disabled (m_page m)); [done|].
    destruct Hinv as [[Ht Hs]|(Hu & Hi & Htasks)].
    + destruct (spawn_settled _ stop m (handler_quiet _ HStop Ht) Hs) as [[Hd' Hq] _].
      left. rewrite Hd'. split; [done|]. by split.
    + apply spawn_stop_loading; [|done]. right. by repeat split.
  - by apply resume_loading.
Qed.

Lemma exec_loading (es : list input) (m : Machine) :
  forallb dispatched es = true → forallb truthy_documents es = true →
  loading_inv m → loading_inv (exec m es).
Proof.
  revert m. induction es as [|e es IH]; intros m Hd Hw Hinv; [done|].
  cbn [forallb] in Hd, Hw. apply andb_true_iff in Hd as [Hd Hds].
  apply andb_true_iff in Hw as [Hw Hws].
  rewrite exec_cons. apply IH; [done..|]. by apply step_loading.
Qed.

(** C9, as stated, fails: when the document served is [null] the first
    load succeeds, and the next call of the loader fetches again. *)
Lemma falsy_document_counterexample :
  ¬ load_once_as_stated world_null_workflow initial_page.
Proof.
  intros H. specialize (H VNull eq_refl world_null_workflow).
  vm_compute in H. discriminate.
Qed.

Lemma loading_inv_boot (s : Page) :
  activeConnection s = None → truthy (WORKFLOW_SPEC s) = false →
  loading_inv (mkMachine s [] []).
Proof. intros Hidle Hunset. right. repeat split; [done..|]. by left. Qed.

(** C9, amended: with a truthy document served, the first successful load
    fetches it once and caches it, and every later call of the loader
    returns that document with no request and the page untouched.  On a
    page that starts without session and tasks, under any sequence of
    clicks and settled requests in worlds that serve truthy documents: once
    the cache holds a truthy document, whatever comes next (clicks, calls
    of the handlers, requests settling in any order) neither replaces it
    nor fetches it again; and when the first click on the start button led
    to it, it has been fetched exactly once. *)
Theorem workflow_loaded_once
    (s : Page) (es es' : list input) (ws : list World) (doc : value) :
  activeConnection s = None →
  truthy (WORKFLOW_SPEC s) = false →
  truthy doc = true →
  (∀ w resp,
     w_fetch w WORKFLOW_URL = Ok resp → ok resp = true → json_body resp = Ok doc →
     returned (run w loadWorkflowSpec s) = Ok doc ∧
     WORKFLOW_SPEC (final (run w loadWorkflowSpec s)) = doc ∧
     fetches WORKFLOW_URL (trace (run w loadWorkflowSpec s)) = 1) ∧
  (∀ w' s', WORKFLOW_SPEC s' = doc →
            run w' loadWorkflowSpec s' = mkOutcome s' [] (Ok doc)) ∧
  (forallb dispatched es = true → forallb truthy_documents es = true →
   let m := exec (mkMachine s [] []) es in
   WORKFLOW_SPEC (m_page m) = doc →
   WORKFLOW_SPEC (m_page (exec m es')) = doc ∧
   fetches WORKFLOW_URL (m_trace (exec m es')) = fetches WORKFLOW_URL (m_trace m)) ∧
  (startBtn_disabled s = false →
   let m := exec (mkMachine s [] []) (ClickStart :: map (Resume 0) ws) in
   WORKFLOW_SPEC (m_page m) = doc →
   fetches WORKFLOW_URL (m_trace m) = 1 ∧
   WORKFLOW_SPEC (m_page (exec m es')) = doc ∧
   fetches WORKFLOW_URL (m_trace (exec m es')) = 1).
Proof.
  intros Hidle Hunset Hdoc. split; [|split; [|split]].
  - intros w resp Hfetch Hok Hjson.
    focus_run w loadWorkflowSpec s. open_page s.
    run_all. intros ->. repeat split; reflexivity.
  - intros w' s' <-. by apply loadWorkflowSpec_cached.
  - intros Hd Hw m Hm.
    assert (Hs : cache_settled doc m).
    { destruct (exec_loading es _ Hd Hw (loading_inv_boot s Hidle Hunset))
        as [[_ Hs]|(Hu & _)]; fold m in Hs || fold m in Hu.
      - by rewrite Hm in Hs.
      - rewrite Hm in Hu. congruence. }
    destruct (exec_settled doc es' m Hdoc Hs) as [[Hc _] Hf]. by split.
  - intros Hbtn m Hm.
    assert (Heq : m = resume_all 0 ws (spawn start (mkMachine s [] []))).
    { subst m. rewrite exec_cons, exec_resumes. unfold step. cbn [m_page]. by rewrite Hbtn. }
    rewrite Heq in Hm.
    destruct (first_load_settles s ws doc Hidle Hunset Hdoc Hm) as [Hs Hone].
    rewrite <- Heq in Hs, Hone.
    destruct (exec_settled doc es' m Hdoc Hs) as [[Hc _] Hf].
    split; [done|]. split; [done|]. by rewrite Hf.
Qed.

Lemma workflow_loaded_once_witness :
  fetches WORKFLOW_URL
    (m_trace (exec boot [ClickStart; Resume 0 world_good; Resume 0 world_good])) = 1 ∧
  fetches WORKFLOW_URL
    (m_trace (exec (exec boot [ClickStart; Resume 0 world_good; Resume 0 world_good])
                   [Call HStart; Resume 1 world_good; Resume 0 world_good;
                    Call HStart; ClickStop])) = 1 ∧
  WORKFLOW_SPEC
    (m_page (exec (exec boot [ClickStart; ClickStart; Resume 0 world_no_workflow;
                              ClickStart; Resume 1 world_good; Resume 1 world_good])
                  [Call HStart; Resume 2 world_good])) = sample_workflow.
Proof.
  pose proof (workflow_loaded_once initial_page
                [ClickStart; ClickStart; Resume 0 world_no_workflow;
                 ClickStart; Resume 1 world_good; Resume 1 world_good]
                [Call HStart; Resume 2 world_good]
                [world_good; world_good] sample_workflow
                eq_refl eq_refl eq_refl) as (_ & _ & Hany & _).
  pose proof (workflow_loaded_once initial_page []
                [Call HStart; Resume 1 world_good; Resume 0 world_good;
                 Call HStart; ClickStop]
                [world_good; world_good] sample_workflow
                eq_refl eq_refl eq_refl) as (_ & _ & _ & Hfirst).
  destruct (Hfirst eq_refl eq_refl) as (Hone & _ & Hlater).
  split; [exact Hone|]. split; [exact Hlater|].
  exact (proj1 (Hany eq_refl eq_refl eq_refl)).
Defined.

(** C10: when the fetch of the workflow specification fails (transport
    error, status outside 200-299, body that does not parse) the loader
    throws that error and leaves the cache as it was; a [start] hit by the
    failure ends in [Idle] with the cache still unset, and the next [start]
    fetches the document again. *)
Theorem workflow_failure_not_cached (w : World) (s : Page) (e : Error) :
  truthy (WORKFLOW_SPEC s) = false →
  workflow_failure w e →
  returned (run w loadWorkflowSpec s) = Err e ∧
  WORKFLOW_SPEC (final (run w loadWorkflowSpec s)) = WORKFLOW_SPEC s ∧
  fetches WORKFLOW_URL (trace (run w loadWorkflowSpec s)) = 1 ∧
  (activeConnection s = None →
   WORKFLOW_SPEC (final (run w start s)) = WORKFLOW_SPEC s ∧
   lifecycle (final (run w start s)) = Idle ∧
   ∀ w', fetches WORKFLOW_URL (trace (run w' start (final (run w start s)))) = 1).
Proof.
  intros Hunset Hfail.
  assert (Hload : returned (run w loadWorkflowSpec s) = Err e ∧
                  WORKFLOW_SPEC (final (run w loadWorkflowSpec s)) = WORKFLOW_SPEC s ∧
                  fetches WORKFLOW_URL (trace (run w loadWorkflowSpec s)) = 1).
  { focus_run w loadWorkflowSpec s.
    destruct Hfail as [e Hf|resp Hf Hok|resp e Hf Hok Hjson];
      open_page s; run_all; intros ->; repeat split; reflexivity. }
  destruct Hload as (Hr & Hs & Hf). split; [done|]. split; [done|]. split; [done|].
  intros Hidle.
  assert (Hstart : ∃ s1, final (run w start s) = s1 ∧
                         WORKFLOW_SPEC s1 = WORKFLOW_SPEC s ∧
                         activeConnection s1 = None ∧ startBtn_disabled s1 = false).
  { focus_run w start s.
    destruct Hfail as [e Hf'|resp Hf' Hok|resp e Hf' Hok Hjson];
      open_page s; run_all; intros ->; eexists; repeat split; reflexivity. }
  destruct Hstart as (s1 & -> & Hs1 & Hc1 & Hb1).
  split; [done|]. split.
  { unfold lifecycle. by rewrite Hc1, Hb1. }
  intros w'. rewrite <- Hs1 in Hunset. clear - Hunset Hc1.
  focus_run w' start s1. open_page s1. run_all; intros ->; reflexivity.
Qed.

Lemma workflow_failure_not_cached_witness :
  workflow_failure world_no_workflow (mkError "Failed to fetch") ∧
  returned (run world_no_workflow loadWorkflowSpec initial_page)
  = Err (mkError "Failed to fetch") ∧
  fetches WORKFLOW_URL
    (trace (run world_good start (final (run world_no_workflow start initial_page)))) = 1.
Proof.
  assert (F : workflow_failure world_no_workflow (mkError "Failed to fetch")).
  { by apply workflow_transport. }
  split; [exact F|].
  pose proof (workflow_failure_not_cached world_no_workflow initial_page _ eq_refl F)
    as (Hr & _ & _ & Hstart).
  split; [exact Hr|]. exact (proj2 (proj2 (Hstart eq_refl)) world_good).
Defined.

(** ** Start requests while a session is being set up or is up *)







(** [start] itself guards on the session handle only: two calls of
    [start] that overlap, which no click produces, each run a connection
    attempt and each fetch the workflow document. *)
Lemma overlapping_start_calls :
  lifecycle (m_page (exec boot [Call HStart])) = Connecting ∧
  ¬ start_call_is_noop (exec boot [Call HStart]) ∧
  sessions_created (m_trace (exec boot duplicate_start_schedule)) = 2 ∧
  fetches WORKFLOW_URL (m_trace (exec boot duplicate_start_schedule)) = 2.
Proof.
  split; [reflexivity|]. split; [|split; vm_compute; reflexivity].
  intros [extra H].
  apply (f_equal (fun m => match m_tasks m with
                           | [_; Ret _] => true
                           | _ => false
                           end)) in H.
  vm_compute in H. discriminate.
Qed.



(** ** The backend without a key *)

(** C6: with no API key configured, the health endpoint reports
    [apiKeyConfigured: false] and the proxy answers [init-webrtc] with a
    configuration fault without calling the remote service; and with a key
    configured the health response is the same whatever the key is, so it
    carries the presence of the key and nothing of its value. *)
Theorem unconfigured_server_refuses
    (texts : bool → string * string)
    (remote : Server.Remote) (req : Server.ProxyRequest) (key key' : string) :
  Server.apiKeyConfigured (Server.health texts (Server.mkConfig None)) = false ∧
  Server.init_webrtc (Server.mkConfig None) remote req
  = Server.mkProxyResult (inr Server.ConfigurationFault) [] ∧
  Server.apiKeyConfigured (Server.health texts (Server.mkConfig (Some key))) = true ∧
  Server.health texts (Server.mkConfig (Some key))
  = Server.health texts (Server.mkConfig (Some key')).
Proof. repeat split. Qed.

(** ** What [start] does in every world *)

(** Find a line among those appended to the console. *)
Ltac find_line :=
  apply elem_of_app;
  first [ right; apply list_elem_of_singleton; reflexivity | left; find_line ].

(** Every way [start] can go from a page without a session handle, walked
    once: how it ends, and what a refused playback or a missing remote
    stream leave behind. *)
Lemma start_cases (w : World) (s : Page) :
  activeConnection s = None →
  (returned (run w start s) = Ok tt ∧
   ((∃ conn remote,
       activeConnection (final (run w start s)) = Some conn ∧
       video_srcObject (final (run w start s)) = Some remote ∧
       status_text (final (run w start s)) = "Connected - Processing video" ∧
       startBtn_disabled (final (run w start s)) = true ∧
       stopBtn_disabled (final (run w start s)) = false ∧
       alerts (final (run w start s)) = alerts s ∧
       sessions_created (trace (run w start s)) = 1) ∨
    (∃ e,
       stopped_by (trace (run w start s)) = Some e ∧
       activeConnection (final (run w start s)) = None ∧
       startBtn_disabled (final (run w start s)) = false ∧
       stopBtn_disabled (final (run w start s)) = stopBtn_disabled s ∧
       status_text (final (run w start s)) = error_status e ∧
       alerts (final (run w start s)) = alerts s ++ error_alerts e))) ∧
  (existsb is_play_rejected (trace (run w start s)) = true →
   lifecycle (final (run w start s)) = Connected ∧
   stopBtn_disabled (final (run w start s)) = false ∧
   status_text (final (run w start s)) = "Connected - Processing video" ∧
   (LWarn, "[UI] Autoplay failed:") ∈ console (final (run w start s))) ∧
  (existsb is_remoteStream_rejected (trace (run w start s)) = true →
   lifecycle (final (run w start s)) = Idle ∧
   activeConnection (final (run w start s)) = None ∧
   video_srcObject (final (run w start s)) = video_srcObject s ∧
   sessions_created (trace (run w start s)) = 1 ∧
   cleanups (trace (run w start s)) = 0 ∧
   length (active_captures (trace (run w start s))) = 1).
Proof.
  intros Hidle. focus_run w start s. open_page s.
  run_all; intros ->; (split; [split; [reflexivity|]|split]).
  all: try (intros Hrej; first [discriminate Hrej | repeat split; try reflexivity]).
  all: try match goal with
           | |- _ ∈ _ => cbn [final console]; find_line
           end.
  all: first
    [ left; eexists _, _; repeat split; reflexivity
    | match goal with
      | H : includes _ (message ?e) = _ |- _ =>
          right; exists e; unfold error_status, error_alerts; rewrite H;
          cbn [final activeConnection startBtn_disabled stopBtn_disabled status_text alerts];
          rewrite ?app_nil_r; repeat split; try reflexivity
      end ].
  all: unfold stopped_by; cbn [trace app last mbind option_bind failure_of].
  all: match goal with H : ok _ = false |- _ => rewrite H end; reflexivity.
Qed.

(** X1: from a page without a session handle, [start] never throws
    (rejections being error objects with a message, as the [catch] block
    takes them to be), and it ends in one of two ways.  Either the handle
    is set, the remote stream is in the video sink, the status reads
    Connected, the stop button is enabled and the start button disabled,
    and exactly one session was created; or the last request of the run
    failed, the handle is null, the start button is enabled again, the stop
    button is as it was, and the status line and the alerts are those of
    the error of that request. *)
Theorem start_settles (w : World) (s : Page) :
  activeConnection s = None →
  returned (run w start s) = Ok tt ∧
  ((∃ conn remote,
      activeConnection (final (run w start s)) = Some conn ∧
      video_srcObject (final (run w start s)) = Some remote ∧
      status_text (final (run w start s)) = "Connected - Processing video" ∧
      startBtn_disabled (final (run w start s)) = true ∧
      stopBtn_disabled (final (run w start s)) = false ∧
      alerts (final (run w start s)) = alerts s ∧
      sessions_created (trace (run w start s)) = 1) ∨
   (∃ e,
      stopped_by (trace (run w start s)) = Some e ∧
      activeConnection (final (run w start s)) = None ∧
      startBtn_disabled (final (run w start s)) = false ∧
      stopBtn_disabled (final (run w start s)) = stopBtn_disabled s ∧
      status_text (final (run w start s)) = error_status e ∧
      alerts (final (run w start s)) = alerts s ++ error_alerts e)).
Proof. intros Hidle. exact (proj1 (start_cases w s Hidle)). Qed.

Lemma start_settles_witness :
  returned (run world_negotiation_fails start initial_page) = Ok tt ∧
  status_text (final (run world_negotiation_fails start initial_page))
  = "Error: Failed to initialize WebRTC" ∧
  returned (run world_good start initial_page) = Ok tt.
Proof.
  split; [|split].
  - exact (proj1 (start_settles world_negotiation_fails initial_page eq_refl)).
  - destruct (proj2 (start_settles world_negotiation_fails initial_page eq_refl))
      as [(conn & remote & Hc & _) | (e & He & _ & _ & _ & Hs & _)].
    + discriminate Hc.
    + injection He as <-. exact Hs.
  - exact (proj1 (start_settles world_good initial_page eq_refl)).
Defined.

(** X2: a refused [videoEl.play()] is not fatal: whenever the trace of
    [start] holds a rejected play request, [start] has still returned
    normally with the handle set, the page [Connected], the stop button
    enabled, and the refusal logged as a warning. *)
Theorem autoplay_failure_is_not_fatal (w : World) (s : Page) :
  activeConnection s = None →
  existsb is_play_rejected (trace (run w start s)) = true →
  returned (run w start s) = Ok tt ∧
  lifecycle (final (run w start s)) = Connected ∧
  stopBtn_disabled (final (run w start s)) = false ∧
  status_text (final (run w start s)) = "Connected - Processing video" ∧
  (LWarn, "[UI] Autoplay failed:") ∈ console (final (run w start s)).
Proof.
  intros Hidle Hplay.
  destruct (start_cases w s Hidle) as ((Hr & _) & H & _).
  split; [exact Hr | exact (H Hplay)].
Qed.

Lemma autoplay_failure_is_not_fatal_witness :
  existsb is_play_rejected (trace (run world_autoplay_blocked start initial_page)) = true ∧
  lifecycle (final (run world_autoplay_blocked start initial_page)) = Connected.
Proof.
  split; [reflexivity|].
  exact (proj1 (proj2 (autoplay_failure_is_not_fatal world_autoplay_blocked initial_page
                         eq_refl eq_refl))).
Defined.

(** X3: when the session has been negotiated but [connection.remoteStream()]
    rejects, [start] drops the handle it had just stored without calling
    [cleanup()]: the page is [Idle] with the start button enabled, one
    session was created, no cleanup was requested, and the video sink is
    as it was. *)
Theorem remote_stream_failure_drops_session (w : World) (s : Page) :
  activeConnection s = None →
  existsb is_remoteStream_rejected (trace (run w start s)) = true →
  returned (run w start s) = Ok tt ∧
  lifecycle (final (run w start s)) = Idle ∧
  activeConnection (final (run w start s)) = None ∧
  video_srcObject (final (run w start s)) = video_srcObject s ∧
  sessions_created (trace (run w start s)) = 1 ∧
  cleanups (trace (run w start s)) = 0 ∧
  length (active_captures (trace (run w start s))) = 1.
Proof.
  intros Hidle Hremote.
  destruct (start_cases w s Hidle) as ((Hr & _) & _ & H).
  split; [exact Hr | exact (H Hremote)].
Qed.

Lemma remote_stream_failure_drops_session_witness :
  existsb is_remoteStream_rejected
    (trace (run world_no_remote_stream start initial_page)) = true ∧
  sessions_created (trace (run world_no_remote_stream start initial_page)) = 1 ∧
  cleanups (trace (run world_no_remote_stream start initial_page)) = 0.
Proof.
  pose proof (remote_stream_failure_drops_session world_no_remote_stream initial_page
                eq_refl eq_refl) as (_ & _ & _ & _ & Hs & Hc & _).
  split; [reflexivity|]. split; assumption.
Defined.

(** X4: when the camera cannot be opened, no negotiation is attempted: no
    [useStream] call is made, no session is created, no capture is open,
    and the page is [Idle]; if the attempt got as far as the camera, the
    status line shows the camera's error. *)
Theorem camera_failure_skips_negotiation (w : World) (s : Page) (e : Error) :
  activeConnection s = None →
  w_useCamera w = Err e →
  ice_lists (trace (run w start s)) = [] ∧
  sessions_created (trace (run w start s)) = 0 ∧
  active_captures (trace (run w start s)) = [] ∧
  lifecycle (final (run w start s)) = Idle ∧
  (existsb is_camera_request (trace (run w start s)) = true →
   status_text (final (run w start s)) = error_status e).
Proof.
  intros Hidle Hcam. focus_run w start s. open_page s.
  run_all; intros ->; repeat split; try reflexivity.
  all: intros Hreq; try discriminate Hreq.
  all: unfold error_status;
    match goal with H : includes _ _ = _ |- _ => rewrite H end; reflexivity.
Qed.

Lemma camera_failure_skips_negotiation_witness :
  ice_lists (trace (run world_no_camera start initial_page)) = [] ∧
  status_text (final (run world_no_camera start initial_page)) = "Error: Permission denied".
Proof.
  pose proof (camera_failure_skips_negotiation world_no_camera initial_page
                (mkError "Permission denied") eq_refl eq_refl) as (Hi & _ & _ & _ & Hs).
  split; [exact Hi|]. exact (Hs eq_refl).
Defined.

(** X5: a failed load of the workflow specification ends the attempt at
    once: the only requests [start] makes are the fetch of the document
    and, when a response arrived with a good status, the reading of its
    body; the TURN service and the camera are never asked, and the status
    line shows the loader's error. *)
Theorem workflow_failure_aborts_start (w : World) (s : Page) (e : Error) :
  activeConnection s = None →
  truthy (WORKFLOW_SPEC s) = false →
  workflow_failure w e →
  fetches WORKFLOW_URL (trace (run w start s)) = 1 ∧
  fetches TURN_URL (trace (run w start s)) = 0 ∧
  existsb is_camera_request (trace (run w start s)) = false ∧
  length (trace (run w start s)) ≤ 2 ∧
  lifecycle (final (run w start s)) = Idle ∧
  status_text (final (run w start s)) = error_status e.
Proof.
  intros Hidle Hunset Hfail. focus_run w start s.
  destruct Hfail as [e Hf|resp Hf Hok|resp e Hf Hok Hjson];
    open_page s; run_all; intros ->; repeat split; try reflexivity.
  all: try (simpl; lia).
  all: unfold error_status;
    match goal with H : includes _ _ = _ |- _ => rewrite H end; reflexivity.
Qed.

Lemma workflow_failure_aborts_start_witness :
  workflow_failure world_no_workflow (mkError "Failed to fetch") ∧
  fetches TURN_URL (trace (run world_no_workflow start initial_page)) = 0 ∧
  status_text (final (run world_no_workflow start initial_page)) = "Error: Failed to fetch".
Proof.
  assert (F : workflow_failure world_no_workflow (mkError "Failed to fetch")).
  { by apply workflow_transport. }
  pose proof (workflow_failure_aborts_start world_no_workflow initial_page _
                eq_refl eq_refl F) as (_ & Ht & _ & _ & _ & Hs).
  split; [exact F|]. split; [exact Ht | exact Hs].
Defined.

(** X6: called with a workflow specification, [connectWebcamToRoboflowWebRTC]
    leaves the loader alone: the document is not fetched, the cache is not
    touched, and the specification handed to [useStream] is the caller's. *)
Theorem provided_workflow_is_used (w : World) (s : Page) (opt : value) :
  truthy opt = true →
  fetches WORKFLOW_URL (trace (run w (connectWebcamToRoboflowWebRTC opt) s)) = 0 ∧
  WORKFLOW_SPEC (final (run w (connectWebcamToRoboflowWebRTC opt) s)) = WORKFLOW_SPEC s ∧
  Forall (fun v => v = opt)
         (workflow_specs (trace (run w (connectWebcamToRoboflowWebRTC opt) s))).
Proof.
  intros Hopt. focus_run w (connectWebcamToRoboflowWebRTC opt) s. open_page s.
  run_all; intros ->; repeat split; try reflexivity.
  all: cbn; repeat constructor.
Qed.

Lemma provided_workflow_is_used_witness :
  fetches WORKFLOW_URL
    (trace (run world_good (connectWebcamToRoboflowWebRTC sample_workflow) initial_page)) = 0 ∧
  workflow_specs
    (trace (run world_good (connectWebcamToRoboflowWebRTC sample_workflow) initial_page))
  = [sample_workflow].
Proof.
  split; [|reflexivity].
  exact (proj1 (provided_workflow_is_used world_good initial_page sample_workflow eq_refl)).
Defined.

(** ** The other listeners *)

(** X7: the unload listeners call [cleanup()] on the active connection and
    change nothing on the page, the session handle included; so [pagehide]
    followed by [beforeunload] asks for the cleanup of the same connection
    twice, and without a connection they do nothing. *)
Theorem unload_keeps_handle (w w' : World) (s : Page) :
  final (run w on_unload s) = s ∧
  returned (run w on_unload s) = Ok tt ∧
  (activeConnection s = None → trace (run w on_unload s) = []) ∧
  (∀ c, activeConnection s = Some c →
        trace (run w on_unload s) = [Ev (Cleanup c) (w_cleanup w c)] ∧
        trace (run w' on_unload (final (run w on_unload s)))
        = [Ev (Cleanup c) (w_cleanup w' c)]).
Proof.
  assert (H : final (run w on_unload s) = s ∧ returned (run w on_unload s) = Ok tt).
  { unfold on_unload. open_page s. destruct active; split; reflexivity. }
  destruct H as [Hf Hr]. rewrite Hf. repeat split; try assumption.
  - intros Hc. unfold on_unload. open_page s. reflexivity.
  - unfold on_unload. open_page s. reflexivity.
  - unfold on_unload. open_page s. reflexivity.
Qed.

Lemma unload_keeps_handle_witness :
  cleanups (trace (run world_good on_unload connected_page) ++
            trace (run world_good on_unload
                       (final (run world_good on_unload connected_page)))) = 2.
Proof.
  destruct (unload_keeps_handle world_good world_good connected_page)
    as (_ & _ & _ & H).
  destruct (H (mkConnection 1 7) eq_refl) as [-> ->]. reflexivity.
Defined.

(** X8: a click on the stop button of a connected page disables the button
    before [cleanup()] is awaited, so a second click while the page is
    [Stopping] is not dispatched; when the cleanup settles the page is
    [Idle] after exactly one cleanup request, and a third click does
    nothing either.  A second call of [stop] itself, made while the first
    awaits, would ask for the cleanup again. *)
Theorem stop_click_while_stopping (w w' : World) (s : Page) (c : Connection) :
  activeConnection s = Some c →
  stopBtn_disabled s = false →
  let m := exec (mkMachine s [] []) [ClickStop] in
  lifecycle (m_page m) = Stopping ∧
  step m ClickStop = m ∧
  lifecycle (m_page (exec m [ClickStop; Resume 0 w; ClickStop])) = Idle ∧
  m_trace (exec m [ClickStop; Resume 0 w; ClickStop]) = [Ev (Cleanup c) (w_cleanup w c)] ∧
  m_tasks (exec m [ClickStop; Resume 0 w; ClickStop]) = [Ret tt] ∧
  cleanups (m_trace (exec m [Call HStop; Resume 0 w; Resume 1 w'])) = 2.
Proof.
  intros Hc Hbtn m. subst m. open_page s.
  repeat split; try reflexivity.
  all: cbn [exec foldl step]; machine_eval; cbn [app]; machine_eval.
  all: destruct (w_cleanup w c) as [[]|?]; machine_eval; try reflexivity.
  all: cbn [app]; machine_eval; destruct (w_cleanup w' c) as [[]|?]; reflexivity.
Qed.

Lemma stop_click_while_stopping_witness :
  step (exec (mkMachine connected_page [] []) [ClickStop]) ClickStop
  = exec (mkMachine connected_page [] []) [ClickStop] ∧
  cleanups (m_trace (exec (mkMachine connected_page [] [])
                          [ClickStop; ClickStop; Resume 0 world_good; ClickStop])) = 1.
Proof.
  pose proof (stop_click_while_stopping world_good world_good connected_page
                (mkConnection 1 7) eq_refl eq_refl) as (_ & Hclick & _ & Htr & _).
  split; [exact Hclick|].
  change (exec (mkMachine connected_page [] []) [ClickStop; ClickStop; Resume 0 world_good; ClickStop])
    with (exec (exec (mkMachine connected_page [] []) [ClickStop])
               [ClickStop; Resume 0 world_good; ClickStop]).
  by rewrite Htr.
Defined.

(** X9: the health check made at load never throws and changes nothing but
    the console.  It does not look at the status of the response: whenever
    the body parses and its [apiKeyConfigured] is falsy or absent, the
    missing-key warning is logged, also for an error response; a fetch that
    fails, a body that does not parse, or a [null] body is logged as an
    error. *)
Theorem health_check_ignores_status (w : World) (s : Page) :
  returned (run w healthCheck s) = Ok tt ∧
  (∃ extra, final (run w healthCheck s) = logged extra s) ∧
  (∀ resp data flag,
     w_fetch w HEALTH_URL = Ok resp → json_body resp = Ok data →
     get_prop data "apiKeyConfigured" = Ok flag →
     console (final (run w healthCheck s)) =
       console s ++ [(LLog, "[UI] Server health:")] ++
       (if truthy flag then []
        else [(LWarn, "[UI] Warning: Server API key not configured")])) ∧
  (∀ resp data e,
     w_fetch w HEALTH_URL = Ok resp → json_body resp = Ok data →
     get_prop data "apiKeyConfigured" = Err e →
     console (final (run w healthCheck s)) =
       console s ++ [(LLog, "[UI] Server health:");
                     (LError, "[UI] Failed to check server health:")]) ∧
  ((∃ e, w_fetch w HEALTH_URL = Err e) ∨
   (∃ resp e, w_fetch w HEALTH_URL = Ok resp ∧ json_body resp = Err e) →
   console (final (run w healthCheck s)) =
     console s ++ [(LError, "[UI] Failed to check server health:")]).
Proof.
  focus_run w healthCheck s. unfold healthCheck. open_page s.
  run_all; intros ->; (split; [reflexivity|]); (split; [eexists; solve_logged|]).
  all: split; [intros ? ? ? ? ? ?|split; [intros ? ? ? ? ? ?|intros [[? ?]|(? & ? & ? & ?)]]];
    simplify_eq;
    repeat match goal with
           | H1 : ?x = ?a, H2 : ?x = ?b |- _ =>
               first [ assert (a = b) by congruence; clear H2; simplify_eq
                     | exfalso; congruence ]
           end;
    cbn [final console]; rewrite <- ?app_assoc; try reflexivity.
  all: match goal with H : truthy _ = _ |- _ => rewrite H end; by rewrite ?app_nil_r.
Qed.

Lemma health_check_ignores_status_witness :
  (LWarn, "[UI] Warning: Server API key not configured")
    ∈ console (final (run world_health_500 healthCheck initial_page)).
Proof.
  destruct (health_check_ignores_status world_health_500 initial_page)
    as (_ & _ & H & _).
  rewrite (H _ _ VUndefined eq_refl eq_refl eq_refl).
  simpl. right. left.
Defined.

(** ** The loaders in every world *)

(** X10: whatever the network answers, [getTurnCredentials] returns
    normally and changes nothing on the page but the console; it makes one
    fetch, of the TURN endpoint, and at most the reading of that response's
    body besides; and what it returns is [null] or an object with exactly
    the fields [urls], [username] and [credential]. *)
Theorem getTurnCredentials_is_total (w : World) (s : Page) :
  ∃ extra v,
    final (run w getTurnCredentials s) = logged extra s ∧
    returned (run w getTurnCredentials s) = Ok v ∧
    fetches TURN_URL (trace (run w getTurnCredentials s)) = 1 ∧
    length (trace (run w getTurnCredentials s)) ≤ 2 ∧
    (v = VNull ∨ fields v = {["urls"; "username"; "credential"]}).
Proof.
  focus_run w getTurnCredentials s. open_page s.
  run_all; intros ->;
    (eexists _, _; split; [solve_logged|]; split; [reflexivity|];
     split; [reflexivity|]; split; [simpl; lia|]).
  all: first [left; reflexivity | right; apply iceServer_literal_fields].
Qed.

(** X12: a workflow document that is falsy ([null], [false], [0], the empty
    string) is returned by the loader and stored, but the cache test does
    not see it: the next call of the loader fetches the document again. *)
Theorem falsy_workflow_is_refetched
    (w w' : World) (s : Page) (resp : Response) (doc : value) :
  truthy (WORKFLOW_SPEC s) = false →
  w_fetch w WORKFLOW_URL = Ok resp → ok resp = true → json_body resp = Ok doc →
  truthy doc = false →
  returned (run w loadWorkflowSpec s) = Ok doc ∧
  WORKFLOW_SPEC (final (run w loadWorkflowSpec s)) = doc ∧
  fetches WORKFLOW_URL
    (trace (run w' loadWorkflowSpec (final (run w loadWorkflowSpec s)))) = 1.
Proof.
  intros Hunset Hfetch Hok Hjson Hdoc.
  assert (H : ∃ s1, final (run w loadWorkflowSpec s) = s1 ∧
                    returned (run w loadWorkflowSpec s) = Ok doc ∧
                    WORKFLOW_SPEC s1 = doc).
  { focus_run w loadWorkflowSpec s. open_page s. run_all. intros ->.
    eexists. repeat split; reflexivity. }
  destruct H as (s1 & -> & Hr & Hs1). split; [done|]. split; [done|].
  rewrite <- Hs1 in Hdoc. clear - Hdoc.
  focus_run w' loadWorkflowSpec s1. open_page s1. run_all; intros ->; reflexivity.
Qed.

Lemma falsy_workflow_is_refetched_witness :
  returned (run world_null_workflow loadWorkflowSpec initial_page) = Ok VNull ∧
  fetches WORKFLOW_URL
    (trace (run world_good loadWorkflowSpec
                (final (run world_null_workflow loadWorkflowSpec initial_page)))) = 1.
Proof.
  pose proof (falsy_workflow_is_refetched world_null_workflow world_good initial_page
                (mkResponse 200 "OK" (Ok VNull)) VNull
                eq_refl eq_refl eq_refl eq_refl eq_refl) as (Hr & _ & Hf).
  split; assumption.
Defined.

(** X11: with a workflow specification at hand, a TURN response that
    passes the checks, the camera open, the negotiation accepted and the
    remote stream delivered, [start] hands [useStream] the specification
    and the list of the STUN entry followed by the TURN entry, and ends
    [Connected]: handle set, remote stream in the sink with the controls
    off, stop button enabled. *)
Theorem start_connects_with_turn
    (w : World) (s : Page) (doc urls username credential : value)
    (cam remote : MediaStream) (conn : Connection) :
  activeConnection s = None →
  workflow_resolves w s doc →
  turn_valid w urls username credential →
  w_useCamera w = Ok cam →
  w_useStream w cam PROXY_URL
    (wrtc_params doc [STUN; iceServer_literal (normalized urls) username credential])
  = Ok conn →
  w_remoteStream w conn = Ok remote →
  ice_lists (trace (run w start s))
  = [[STUN; iceServer_literal (normalized urls) username credential]] ∧
  workflow_specs (trace (run w start s)) = [doc] ∧
  activeConnection (final (run w start s)) = Some conn ∧
  video_srcObject (final (run w start s)) = Some remote ∧
  video_controls (final (run w start s)) = false ∧
  stopBtn_disabled (final (run w start s)) = false ∧
  lifecycle (final (run w start s)) = Connected.
Proof.
  intros Hidle Hdoc (resp & cfg & Hf & Hok & Hj & Hu & Hn & Hc & Tu & Tn & Tc)
         Hcam Hneg Hremote.
  change [STUN; iceServer_literal (normalized urls) username credential]
    with (assemble_iceServers (iceServer_literal (normalized urls) username credential))
    in Hneg.
  unfold normalized in Hneg |- *.
  focus_run w start s.
  destruct Hdoc as [[Hcached ->]|[Hcached (wresp & Hw & Hwok & Hwjson)]];
    open_page s; run_all; intros ->; repeat split; reflexivity.
Qed.

Lemma start_connects_with_turn_witness :
  turn_valid world_good (VStr "turn:relay.example:3478") (VStr "user") (VStr "secret") ∧
  lifecycle (final (run world_good start initial_page)) = Connected ∧
  workflow_specs (trace (run world_good start initial_page)) = [sample_workflow].
Proof.
  assert (V : turn_valid world_good (VStr "turn:relay.example:3478")
                (VStr "user") (VStr "secret")).
  { eexists _, _. repeat split; reflexivity. }
  assert (D : workflow_resolves world_good initial_page sample_workflow).
  { right. split; [reflexivity|]. eexists. repeat split; reflexivity. }
  pose proof (start_connects_with_turn world_good initial_page sample_workflow _ _ _
                7 9 (mkConnection 1 7) eq_refl D V eq_refl eq_refl eq_refl)
    as (_ & Hs & _ & _ & _ & _ & Hl).
  split; [exact V|]. split; assumption.
Defined.

(** ** Fullscreen *)

Section FullscreenFacts.
Import Fullscreen.

(** Run one of the fullscreen functions on a page given by its fields,
    splitting on what the browser has and on how each call settles. *)
Ltac fs_eval :=
  cbv beta iota zeta delta
    [toggleFullscreen checkFullscreenSupport updateFullscreenButton
     mcatch mbind mret say popup invoke available negb orb
     calls lines popups btn_text btn_disabled btn_title container_class fst snd].

Ltac fs_case :=
  match goal with
  | |- context [if ?c then _ else _] => destruct c eqn:?
  | |- context [match ?answers ?c with Some _ => _ | None => _ end] =>
      destruct (answers c) as [?e|] eqn:?
  end; fs_eval.

(** Keep one copy of the toggle in the goal: [r = toggleFullscreen ... → ...]. *)
Ltac fs_focus b answers ui :=
  let r := fresh "r" in
  let Hr := fresh "Hr" in
  remember (toggleFullscreen b answers ui) as r eqn:Hr; revert Hr.

(** X13: [toggleFullscreen] never throws, whatever the browser has and
    however its calls settle, and it makes at most two calls: none; or one
    call on the container or the document; or that call followed by a
    request on the video element, which happens only after the first call
    failed with a TypeError.  The button and the container class are not
    touched. *)
Theorem toggleFullscreen_is_total (b : Browser) (answers : Answers) (ui : Ui) :
  snd (toggleFullscreen b answers ui) = Resolved tt ∧
  btn_text (fst (toggleFullscreen b answers ui)) = btn_text ui ∧
  btn_disabled (fst (toggleFullscreen b answers ui)) = btn_disabled ui ∧
  container_class (fst (toggleFullscreen b answers ui)) = container_class ui ∧
  ∃ new, calls (fst (toggleFullscreen b answers ui)) = calls ui ++ new ∧
    (new = [] ∨
     (∃ c, new = [c] ∧ is_video_request c = false) ∨
     (∃ c v e, new = [c; v] ∧ is_video_request c = false ∧ is_video_request v = true ∧
               answers c = Some e ∧ err_name e = "TypeError")).
Proof.
  fs_focus b answers ui. destruct ui as [cs ls ps txt off title cls].
  unfold isFullscreen. fs_eval. repeat fs_case; intros ->; fs_eval; repeat split.
  all: first
    [ exists []; split; [by rewrite app_nil_r|]; by left
    | eexists [_]; split; [reflexivity|]; right; left; by eexists
    | eexists [_; _]; split; [by rewrite <- app_assoc|]; right; right;
      eexists _, _, _; repeat split; try eassumption; try reflexivity;
      by apply String.eqb_eq ].
Qed.

Lemma toggleFullscreen_is_total_witness :
  calls (fst (toggleFullscreen standard_browser all_type_error blank))
  = [RequestFullscreen VideoContainer Standard; RequestFullscreen VideoEl Standard] ∧
  snd (toggleFullscreen standard_browser all_type_error blank) = Resolved tt.
Proof.
  split; [reflexivity|].
  exact (proj1 (toggleFullscreen_is_total standard_browser all_type_error blank)).
Defined.

(** X14: [checkFullscreenSupport] and [toggleFullscreen] agree on what the
    browser can do.  Outside fullscreen, when the check disables the
    button, a toggle would make no call and raise the not-supported alert;
    when the check leaves the button as it is, a toggle makes its first
    call on the container, with the first of the standard, webkit, moz and
    ms methods the container has, and never raises that alert. *)
Theorem support_check_agrees_with_toggle
    (b : Browser) (answers : Answers) (ui ui' : Ui) :
  isFullscreen b = false →
  (available b = false ∧
   btn_disabled (checkFullscreenSupport b ui) = true ∧
   calls (fst (toggleFullscreen b answers ui')) = calls ui' ∧
   popups (fst (toggleFullscreen b answers ui'))
   = popups ui' ++ ["Fullscreen is not supported in this browser"]) ∨
  (available b = true ∧
   btn_disabled (checkFullscreenSupport b ui) = btn_disabled ui ∧
   btn_title (checkFullscreenSupport b ui) = btn_title ui ∧
   ("Fullscreen is not supported in this browser"
      ∉ drop (length (popups ui')) (popups (fst (toggleFullscreen b answers ui')))) ∧
   ∃ a rest,
     first_of (request_method b VideoContainer) = Some a ∧
     calls (fst (toggleFullscreen b answers ui'))
     = calls ui' ++ RequestFullscreen VideoContainer a :: rest).
Proof.
  intros Hfull.
  destruct ui as [cs0 ls0 ps0 txt0 off0 title0 cls0].
  destruct ui' as [cs ls ps txt off title cls].
  unfold available, first_of.
  destruct (request_method b VideoContainer Standard) eqn:Hs;
    [|destruct (request_method b VideoContainer Webkit) eqn:Hw;
      [|destruct (request_method b VideoContainer Moz) eqn:Hm;
        [|destruct (request_method b VideoContainer Ms) eqn:Hi]]].
  5: { left. fs_eval. rewrite Hfull, Hs, Hw, Hm, Hi. fs_eval. by repeat split. }
  all: right; fs_eval; rewrite Hfull, ?Hs, ?Hw, ?Hm, ?Hi; fs_eval; repeat fs_case.
  all: repeat split; try reflexivity.
  all: try (first [rewrite drop_app_length | rewrite drop_all]; intros Hin;
            repeat (apply elem_of_cons in Hin as [Hin|Hin]; [discriminate Hin|]);
            by apply elem_of_nil in Hin).
  all: eexists _, _; split; [reflexivity|]; by rewrite <- ?app_assoc.
Qed.

Lemma support_check_agrees_with_toggle_witness :
  btn_disabled (checkFullscreenSupport bare_browser blank) = true ∧
  popups (fst (toggleFullscreen bare_browser all_resolve blank))
  = ["Fullscreen is not supported in this browser"].
Proof.
  destruct (support_check_agrees_with_toggle bare_browser all_resolve blank blank eq_refl)
    as [(_ & Hd & _ & Hp) | (Ha & _)]; [|discriminate Ha].
  split; [exact Hd | exact Hp].
Defined.

(** X15: how a failed first call is reported.  A call refused with
    NotAllowedError raises the permission alert and nothing else is
    tried; an error that is neither NotAllowedError nor TypeError raises
    an alert carrying its message and nothing else is tried; only after a
    TypeError is the video element asked, with its standard method if it
    has one, else its webkit method, else not at all. *)
Theorem first_call_failure_is_reported
    (b : Browser) (answers : Answers) (ui : Ui) (a : api) (e : DomError) :
  isFullscreen b = false →
  first_of (request_method b VideoContainer) = Some a →
  answers (RequestFullscreen VideoContainer a) = Some e →
  (err_name e = "NotAllowedError" →
   calls (fst (toggleFullscreen b answers ui))
   = calls ui ++ [RequestFullscreen VideoContainer a] ∧
   popups (fst (toggleFullscreen b answers ui))
   = popups ui ++ ["Fullscreen was denied. Please allow fullscreen permissions and try again."]) ∧
  (err_name e ≠ "NotAllowedError" → err_name e ≠ "TypeError" →
   calls (fst (toggleFullscreen b answers ui))
   = calls ui ++ [RequestFullscreen VideoContainer a] ∧
   popups (fst (toggleFullscreen b answers ui))
   = popups ui ++ ["An error occurred while trying to toggle fullscreen: "
                   +:+ err_message e]) ∧
  (err_name e = "TypeError" →
   calls (fst (toggleFullscreen b answers ui))
   = calls ui ++ RequestFullscreen VideoContainer a ::
       match first_of (fun v => match v with
                                | Standard | Webkit => request_method b VideoEl v
                                | _ => false
                                end) with
       | Some v => [RequestFullscreen VideoEl v]
       | None => []
       end).
Proof.
  intros Hfull Hfirst Hans.
  destruct ui as [cs ls ps txt off title cls].
  unfold first_of in Hfirst |- *.
  destruct (request_method b VideoContainer Standard) eqn:Hs;
    [|destruct (request_method b VideoContainer Webkit) eqn:Hw;
      [|destruct (request_method b VideoContainer Moz) eqn:Hm;
        [|destruct (request_method b VideoContainer Ms) eqn:Hi]]];
    simplify_eq.
  all: fs_eval; rewrite Hfull, ?Hs, ?Hw, ?Hm, ?Hi; fs_eval; rewrite Hans; fs_eval.
  all: split; [intros ->; by fs_eval|].
  all: split; [intros Hn Ht;
               apply String.eqb_neq in Hn; apply String.eqb_neq in Ht;
               rewrite Hn, Ht; by fs_eval|].
  all: intros ->; fs_eval.
  all: destruct (request_method b VideoEl Standard);
       [|destruct (request_method b VideoEl Webkit)]; fs_eval.
  all: repeat fs_case; by rewrite <- ?app_assoc, ?app_nil_r.
Qed.

Lemma first_call_failure_is_reported_witness :
  calls (fst (toggleFullscreen standard_browser all_denied blank))
  = [RequestFullscreen VideoContainer Standard] ∧
  popups (fst (toggleFullscreen standard_browser all_denied blank))
  = ["Fullscreen was denied. Please allow fullscreen permissions and try again."].
Proof.
  exact (proj1 (first_call_failure_is_reported standard_browser all_denied blank Standard
                  (mkDomError "NotAllowedError" "Permissions check failed")
                  eq_refl eq_refl eq_refl) eq_refl).
Defined.

(** X16: in fullscreen the toggle takes the exit path: its first call, if
    it makes one, is the first exit method the document has, in the order
    standard, webkit, moz, ms; when that call resolves nothing else is
    called and nothing is alerted; when the document has no exit method no
    call is made at all, and the exit is logged as done all the same.  No
    call on the container is ever made. *)
Theorem toggle_in_fullscreen_exits (b : Browser) (answers : Answers) (ui : Ui) :
  isFullscreen b = true →
  existsb is_container_request
    (drop (length (calls ui)) (calls (fst (toggleFullscreen b answers ui)))) = false ∧
  match first_of (exit_method b) with
  | Some a =>
      (∃ rest, calls (fst (toggleFullscreen b answers ui))
               = calls ui ++ ExitFullscreen a :: rest) ∧
      (answers (ExitFullscreen a) = None →
       calls (fst (toggleFullscreen b answers ui)) = calls ui ++ [ExitFullscreen a] ∧
       popups (fst (toggleFullscreen b answers ui)) = popups ui)
  | None =>
      calls (fst (toggleFullscreen b answers ui)) = calls ui ∧
      popups (fst (toggleFullscreen b answers ui)) = popups ui ∧
      lines (fst (toggleFullscreen b answers ui))
      = lines ui ++ [(LLog, "[UI] Attempting to exit fullscreen...");
                     (LLog, "[UI] Exited fullscreen")]
  end.
Proof.
  intros Hfull. fs_focus b answers ui. destruct ui as [cs ls ps txt off title cls].
  unfold first_of. fs_eval. rewrite Hfull. fs_eval.
  destruct (exit_method b Standard) eqn:Hs;
    [|destruct (exit_method b Webkit) eqn:Hw;
      [|destruct (exit_method b Moz) eqn:Hm;
        [|destruct (exit_method b Ms) eqn:Hi]]].
  5: { intros ->. fs_eval. repeat split; rewrite <- ?app_assoc; try reflexivity.
       by rewrite drop_ge. }
  all: repeat fs_case; intros ->; fs_eval; rewrite <- ?app_assoc.
  all: (split; [by rewrite drop_app_length|]);
       (split; [by eexists|]); intros Hnone; by simplify_eq.
Qed.

Lemma toggle_in_fullscreen_exits_witness :
  calls (fst (toggleFullscreen webkit_fullscreen_browser all_resolve blank))
  = [ExitFullscreen Webkit].
Proof.
  pose proof (toggle_in_fullscreen_exits webkit_fullscreen_browser all_resolve blank eq_refl)
    as (_ & H).
  exact (proj1 (proj2 H eq_refl)).
Defined.

(** X17: [updateFullscreenButton] and [toggleFullscreen] read the same
    state: after an update the button says Exit and the container carries
    the [fullscreen] class exactly when a toggle would start by exiting;
    otherwise the button says Fullscreen, the class is off, and a toggle
    starts by entering.  The update is idempotent and leaves alone whether
    the button is disabled. *)
Theorem button_label_agrees_with_toggle
    (b : Browser) (answers : Answers) (ui ui' : Ui) :
  updateFullscreenButton b (updateFullscreenButton b ui) = updateFullscreenButton b ui ∧
  btn_disabled (updateFullscreenButton b ui) = btn_disabled ui ∧
  ((btn_text (updateFullscreenButton b ui) = "⛶ Exit Fullscreen" ∧
    container_class (updateFullscreenButton b ui) = true ∧
    ∃ rest, lines (fst (toggleFullscreen b answers ui'))
            = lines ui' ++ (LLog, "[UI] Attempting to exit fullscreen...") :: rest) ∨
   (btn_text (updateFullscreenButton b ui) = "⛶ Fullscreen" ∧
    container_class (updateFullscreenButton b ui) = false ∧
    ∃ rest, lines (fst (toggleFullscreen b answers ui'))
            = lines ui' ++ (LLog, "[UI] Attempting to enter fullscreen...") :: rest)).
Proof.
  split; [reflexivity|]. split; [reflexivity|].
  destruct ui as [cs0 ls0 ps0 txt0 off0 title0 cls0].
  destruct ui' as [cs ls ps txt off title cls].
  fs_focus b answers (mkUi cs ls ps txt off title cls).
  fs_eval. destruct (isFullscreen b) eqn:Hfull; fs_eval.
  - repeat fs_case; intros ->; fs_eval; left;
      (split; [reflexivity|]; split; [reflexivity|]; eexists; by rewrite <- ?app_assoc).
  - repeat fs_case; intros ->; fs_eval; right;
      (split; [reflexivity|]; split; [reflexivity|]; eexists; by rewrite <- ?app_assoc).
Qed.

End FullscreenFacts.
